(** * MindEcho frontend: dashboard signal pipeline, face tracker and chat turns

    A shallow embedding of the stateful logic of three React components:

    - [Dashboard]          (src/pages/DashboardPro.jsx): affect mapping, the
      primary-label classifier, the staging queue and its frame-by-frame
      drain, and the persisted sleep-timing preference;
    - [FaceEmotionTracker] (src/components/FaceEmotionTracker.jsx): the EMA
      smoothing of the expression vector and the calm/anxious/focus mapping;
    - [ChatBot]            (src/components/ChatBot.jsx): the voice turn
      (transcribe, then reply) and the typed-text turn.

    Modelling conventions.
    - A JavaScript number is an exact rational ([Q]); a decimal literal is the
      rational it denotes.  NaN, infinities and binary rounding are outside
      the model.
    - A JavaScript string is a [string] of 8-bit code units.
    - [undefined]/[null] is [None].
    - React state, refs and the browser's localStorage are fields of an
      explicit state record; an event handler is a computation in the
      state-and-exception monad [Js.M].
    - Collaborators the component only calls (inference service, backend
      push, HTTP backend, clock) are parameters of the handlers. *)

From Stdlib Require Import QArith Qminmax Lqa ZArith Ascii.
From Stdlib Require Import Qround.
From stdpp Require Import gmap strings list.

(** ** JavaScript primitives used by the components *)
Module Js.

(** [x < y] and [x > y] on numbers. *)
Definition ltb (x y : Q) : bool :=
  match (x ?= y)%Q with Lt => true | _ => false end.

Definition gtb (x y : Q) : bool := ltb y x.

(** [Math.min] and [Math.max]. *)
Definition Math_min (a b : Q) : Q := Qmin a b.

Definition Math_max (a b : Q) : Q := Qmax a b.

(** [o ?? d]. *)
Definition nullish {A : Type} (o : option A) (d : A) : A := default d o.

(** Truthiness of a string: only the empty string is falsy. *)
Definition truthy (s : string) : bool := negb (String.eqb s "").

(** [o || d] on a possibly missing string: a missing or empty one gives [d]. *)
Definition or_else (o : option string) (d : string) : string :=
  match o with
  | Some s => if truthy s then s else d
  | None => d
  end.

(** White space as [String.prototype.trim] sees it, among the code units
    below 256: TAB, LF, VT, FF, CR, SPACE and NBSP. *)
Definition is_space (c : ascii) : bool :=
  let n := N_of_ascii c in
  ((9 <=? n) && (n <=? 13) || (n =? 32) || (n =? 160))%N.

Fixpoint trimStart (s : string) : string :=
  match s with
  | EmptyString => EmptyString
  | String c s' => if is_space c then trimStart s' else s
  end.

Definition trimEnd (s : string) : string :=
  String.rev (trimStart (String.rev s)).

Definition trim (s : string) : string := trimEnd (trimStart s).

(** [arr.slice(-n)]: the last [n] elements, the whole array when it is
    shorter. *)
Definition slice_last {A : Type} (n : nat) (l : list A) : list A :=
  drop (length l - n) l.

(** [arr.splice(0, n)] returns the removed head and leaves the rest. *)
Definition splice_head {A : Type} (n : nat) (l : list A) : list A * list A :=
  (take n l, drop n l).

(** The result of running a statement: it completes with a value or throws. *)
Inductive Outcome (A : Type) : Type :=
| Returned (a : A)
| Threw (err : string).
Arguments Returned {A} a.
Arguments Threw {A} err.

(** Computations over a mutable state [S] that may throw.  A throw keeps
    the mutations made before it. *)
Definition M (S A : Type) : Type := S -> Outcome A * S.

Definition ret {S A : Type} (a : A) : M S A := fun s => (Returned a, s).

Definition throw {S A : Type} (err : string) : M S A := fun s => (Threw err, s).

Definition bind {S A B : Type} (c : M S A) (k : A -> M S B) : M S B :=
  fun s =>
    match c s with
    | (Returned a, s') => k a s'
    | (Threw e, s') => (Threw e, s')
    end.

Definition get {S : Type} : M S S := fun s => (Returned s, s).

Definition modify {S : Type} (f : S -> S) : M S unit := fun s => (Returned tt, f s).

(** Lifts the outcome of a call to a collaborator. *)
Definition call {S A : Type} (o : Outcome A) : M S A := fun s => (o, s).

(** [try { c } catch (e) { h e }]. *)
Definition try_catch {S A : Type} (c : M S A) (h : string -> M S A) : M S A :=
  fun s =>
    match c s with
    | (Returned a, s') => (Returned a, s')
    | (Threw e, s') => h e s'
    end.

(** [try { c } finally { f }]. *)
Definition try_finally {S A : Type} (c : M S A) (f : M S unit) : M S A :=
  fun s =>
    match c s with
    | (o, s') =>
        match f s' with
        | (Returned _, s'') => (o, s'')
        | (Threw e, s'') => (Threw e, s'')
        end
    end.

(** The state a computation leaves behind, and its outcome. *)
Definition exec {S A : Type} (c : M S A) (s : S) : S := snd (c s).

Definition outcome {S A : Type} (c : M S A) (s : S) : Outcome A := fst (c s).

Definition completes {A : Type} (o : Outcome A) : bool :=
  match o with Returned _ => true | Threw _ => false end.

(** [Math.round(x)]: the nearest integer, a tie going up. *)
Definition Math_round (x : Q) : Z := Qfloor (x + (1 # 2)).

(** [Math.max(...(x :: xs))] and [Math.min(...(x :: xs))] for a spread
    array that is not empty. *)
Definition Math_max_spread (x : Q) (xs : list Q) : Q := foldl Math_max x xs.

Definition Math_min_spread (x : Q) (xs : list Q) : Q := foldl Math_min x xs.

End Js.

Declare Scope js_scope.
Delimit Scope js_scope with js.
Notation "'do' x <- c1 ; c2" := (Js.bind c1 (fun x => c2))
  (at level 10, x name, c1 at level 100, c2 at level 200) : js_scope.
Notation "'run' c1 ; c2" := (Js.bind c1 (fun _ => c2))
  (at level 10, c1 at level 100, c2 at level 200) : js_scope.

(** ** The dashboard page (src/pages/DashboardPro.jsx) *)
Module Dashboard.
Import Js.

(** [clamp(v, a, b)]; the call site below passes both bounds. *)
Definition clamp (v a b : Q) : Q := Math_max a (Math_min b v).

(** The signal the face tracker hands to [onSignal]; the handler reads only
    [calm] and [focus], each possibly missing. *)
Record FaceSignal : Type := {
  sig_calm : option Q;
  sig_focus : option Q
}.

(** [mapAffectToValue({ calm = 0, focus = 0 })]. *)
Definition mapAffectToValue (arg : FaceSignal) : Q :=
  let calm := nullish (sig_calm arg) 0%Q in
  let focus := nullish (sig_focus arg) 0%Q in
  let raw := (focus * 1.25 + calm * 0.9)%Q in
  clamp raw (-3)%Q 3%Q.

Definition SLEEP_KEY : string := "mindcare_sleep_timing".

(** One entry of the staging queue and, later, of the display window. *)
Record Sample : Type := {
  ts : Z;
  value : Q;
  time : string;
  source : option string
}.

Record Scores : Type := { calm : Q; focus : Q }.

Record Emotion : Type := { primary : string; scores : Scores }.

(** The browser's localStorage: its items, and whether access to it throws
    (storage disabled or denied). *)
Record Storage : Type := {
  items : gmap string string;
  denied : bool
}.

(** The component's state: React state ([sleepTiming], [emotion],
    [running], [paused], [tip], [signals]), the [rawBuffer] ref, the
    [latestVal] motion value, and the localStorage the page runs against. *)
Record State : Type := {
  sleepTiming : string;
  emotion : Emotion;
  running : bool;
  paused : bool;
  tip : string;
  rawBuffer : list Sample;
  signals : list Sample;
  latestVal : Q;
  localStorage : Storage
}.

Definition setSleepTiming (v : string) (st : State) : State :=
  {| sleepTiming := v; emotion := emotion st; running := running st;
     paused := paused st; tip := tip st; rawBuffer := rawBuffer st;
     signals := signals st; latestVal := latestVal st;
     localStorage := localStorage st |}.

Definition setEmotion (e : Emotion) (st : State) : State :=
  {| sleepTiming := sleepTiming st; emotion := e; running := running st;
     paused := paused st; tip := tip st; rawBuffer := rawBuffer st;
     signals := signals st; latestVal := latestVal st;
     localStorage := localStorage st |}.

Definition setTip (t : string) (st : State) : State :=
  {| sleepTiming := sleepTiming st; emotion := emotion st; running := running st;
     paused := paused st; tip := t; rawBuffer := rawBuffer st;
     signals := signals st; latestVal := latestVal st;
     localStorage := localStorage st |}.

Definition setRawBuffer (b : list Sample) (st : State) : State :=
  {| sleepTiming := sleepTiming st; emotion := emotion st; running := running st;
     paused := paused st; tip := tip st; rawBuffer := b;
     signals := signals st; latestVal := latestVal st;
     localStorage := localStorage st |}.

Definition setSignals (l : list Sample) (st : State) : State :=
  {| sleepTiming := sleepTiming st; emotion := emotion st; running := running st;
     paused := paused st; tip := tip st; rawBuffer := rawBuffer st;
     signals := l; latestVal := latestVal st;
     localStorage := localStorage st |}.

Definition setLatestVal (v : Q) (st : State) : State :=
  {| sleepTiming := sleepTiming st; emotion := emotion st; running := running st;
     paused := paused st; tip := tip st; rawBuffer := rawBuffer st;
     signals := signals st; latestVal := v;
     localStorage := localStorage st |}.

Definition setLocalStorage (ls : Storage) (st : State) : State :=
  {| sleepTiming := sleepTiming st; emotion := emotion st; running := running st;
     paused := paused st; tip := tip st; rawBuffer := rawBuffer st;
     signals := signals st; latestVal := latestVal st;
     localStorage := ls |}.

(** [rawBuffer.current.push(s)]. *)
Definition pushRaw (s : Sample) (st : State) : State :=
  setRawBuffer (rawBuffer st ++ [s]) st.

(** [getTip(p)]: the text shown under the primary state. *)
Definition getTip (p : string) : string :=
  if negb (truthy p) then "Waiting for signals..."
  else if String.eqb p "calm" then "Calm — keep gentle breathing."
  else if String.eqb p "tense" then "Tension detected — try 4 slow breaths."
  else if String.eqb p "focused" then "Focused — short breaks extend flow."
  else "Stable — hydrate and blink.".

(** *** Collaborators *)

Record User : Type := { id : string; consent : bool }.

Record Neuro : Type := { alpha : option Q; beta : option Q }.

(** What the simulated sensor feed delivers. *)
Record SensorSample : Type := { neuro : option Neuro }.

(** What [inferenceService.inferEmotion] returns when it returns an object. *)
Record EmRaw : Type := {
  em_primary : option string;
  em_calm : option Q;
  em_focus : option Q
}.

(** The payloads handed to [simulatePush]. *)
Inductive Payload : Type :=
| SensorPush (v : Q) (at_ts : Z)
| FacePush (at_ts : Z) (c f : option Q).

(** The services and the clock a handler runs against.  Each service call
    either returns or throws. *)
Record Env : Type := {
  inferEmotion : SensorSample -> bool -> Outcome (option EmRaw);
  simulatePush : option string -> Payload -> Outcome unit;
  now : Z;
  localeTime : string
}.

(** *** Producers *)

(** The value a sensor sample contributes: [alpha - beta] when both are
    present, [0] otherwise. *)
Definition sensorValue (s : SensorSample) : Q :=
  match neuro s with
  | Some n =>
      match alpha n, beta n with
      | Some a, Some b => (a - b)%Q
      | _, _ => 0%Q
      end
  | None => 0%Q
  end.

(** The callback registered with [sensorSimulator.on("signals", ...)]. *)
Definition onSensorSignals (env : Env) (user : User) (s : SensorSample) : M State unit :=
  (do st <- get ;
   if negb (running st) || paused st then ret tt
   else
     run try_catch
       (do emRaw <- call (inferEmotion env s (consent user)) ;
        match emRaw with
        | Some e =>
            let normalized :=
              {| primary := or_else (em_primary e) "neutral";
                 scores := {| calm := nullish (em_calm e) 0%Q;
                              focus := nullish (em_focus e) 0%Q |} |} in
            run modify (setEmotion normalized) ;
            modify (setTip (getTip (primary normalized)))
        | None => ret tt
        end)
       (fun _ => ret tt) ;
     let val := sensorValue s in
     run modify (pushRaw {| ts := now env; value := val;
                            time := localeTime env; source := None |}) ;
     try_catch
       (call (simulatePush env (Some (id user)) (SensorPush val (now env))))
       (fun _ => ret tt))%js.

(** The primary label computed inside [handleFaceSignal]. *)
Definition classify (calm focus : Q) : string :=
  if gtb calm 0.6%Q && gtb calm focus then "calm"
  else if gtb focus 0.55%Q && gtb focus calm then "focused"
  else if ltb calm 0.35%Q && ltb focus 0.4%Q then "tense"
  else "neutral".

(** [handleFaceSignal(sig)], the [onSignal] callback of the face tracker. *)
Definition handleFaceSignal (env : Env) (user : option User) (sig : option FaceSignal)
  : M State unit :=
  match sig with
  | None => ret tt
  | Some sg =>
      let calm := nullish (sig_calm sg) 0%Q in
      let focus := nullish (sig_focus sg) 0%Q in
      let primary := classify calm focus in
      (run modify (setEmotion {| primary := primary;
                                 scores := {| calm := calm; focus := focus |} |}) ;
       run modify (setTip (getTip primary)) ;
       let mapped := mapAffectToValue {| sig_calm := Some calm; sig_focus := Some focus |} in
       run modify (pushRaw {| ts := now env; value := mapped;
                              time := localeTime env; source := Some "camera" |}) ;
       try_catch
         (call (simulatePush env (id <$> user)
                  (FacePush (now env) (Some calm) (Some focus))))
         (fun _ => ret tt))%js
  end.
(** The sensor feed delivering a run of samples, one callback each, every
    sample with the services and the clock it meets. *)
Definition ingest (user : User) (feed : list (Env * SensorSample)) (st : State) : State :=
  foldl (fun s x => exec (onSensorSignals (fst x) user (snd x)) s) st feed.

(** *** The frame-by-frame drain *)

(** One run of [tick], the requestAnimationFrame callback.  The callback
    also re-registers itself for the next frame; that handle ([rafRef]) is
    not part of the buffer state modelled here. *)
Definition tick (st : State) : State :=
  match rawBuffer st with
  | [] => st
  | _ :: _ =>
      let '(take, rest) := splice_head 4 (rawBuffer st) in
      let merged := slice_last 160 (signals st ++ take) in
      let newest := match last merged with
                    | Some s => value s
                    | None => 0%Q
                    end in
      setLatestVal newest (setSignals merged (setRawBuffer rest st))
  end.

(** What happens to the buffer over time: a producer enqueues a sample, or
    a display frame drains. *)
Inductive Event : Type :=
| Enqueue (s : Sample)
| Frame.

Definition step (st : State) (e : Event) : State :=
  match e with
  | Enqueue s => pushRaw s st
  | Frame => tick st
  end.

Definition replay (evs : list Event) (st : State) : State := foldl step st evs.

(** The samples a run enqueues, in arrival order. *)
Definition enqueued (evs : list Event) : list Sample :=
  omap (fun e => match e with Enqueue s => Some s | Frame => None end) evs.

(** *** The sleep-timing preference *)

Definition getItem (k : string) : M State (option string) :=
  (do st <- get ;
   if denied (localStorage st) then throw "SecurityError"
   else ret (items (localStorage st) !! k))%js.

Definition setItem (k v : string) : M State unit :=
  (do st <- get ;
   if denied (localStorage st) then throw "SecurityError"
   else modify (setLocalStorage
                  {| items := <[k := v]> (items (localStorage st));
                     denied := denied (localStorage st) |}))%js.

Definition removeItem (k : string) : M State unit :=
  (do st <- get ;
   if denied (localStorage st) then throw "SecurityError"
   else modify (setLocalStorage
                  {| items := delete k (items (localStorage st));
                     denied := denied (localStorage st) |}))%js.

(** The initializer of the [sleepTiming] state: the stored string, or the
    empty string when there is none or storage throws. *)
Definition initialSleepTiming : M State string :=
  try_catch
    (do v <- getItem SLEEP_KEY ; ret (or_else v ""))%js
    (fun _ => ret "").

(** The state before the first render, over a given localStorage. *)
Definition blank (ls : Storage) : State :=
  {| sleepTiming := "";
     emotion := {| primary := "neutral"; scores := {| calm := 0; focus := 0 |} |};
     running := true; paused := false;
     tip := "Waiting for signals...";
     rawBuffer := []; signals := []; latestVal := 0;
     localStorage := ls |}.

(** Mounting the page (also: reloading it) over a given localStorage. *)
Definition mount (ls : Storage) : State :=
  match initialSleepTiming (blank ls) with
  | (Returned v, st) => setSleepTiming v st
  | (Threw _, st) => st
  end.

(** [saveSleepTiming(val)]; a missing [val] is [None]. *)
Definition saveSleepTiming (val : option string) : M State unit :=
  try_catch
    (match val with
     | Some v =>
         if truthy v
         then (run setItem SLEEP_KEY v ; modify (setSleepTiming v))%js
         else (run removeItem SLEEP_KEY ; modify (setSleepTiming ""))%js
     | None => (run removeItem SLEEP_KEY ; modify (setSleepTiming ""))%js
     end)
    (fun _ => ret tt).

(** [onSetSleepTiming]: [input] is what [window.prompt] returned, [None]
    when the user cancelled.  The toast event dispatched afterwards is
    outside the model. *)
Definition onSetSleepTiming (input : option string) : M State unit :=
  match input with
  | None => ret tt
  | Some i =>
      let trimmed := trim i in
      if negb (truthy trimmed) then ret tt
      else saveSleepTiming (Some trimmed)
  end.

(** [onClearSleepTiming]: [confirmed] is what [window.confirm] returned. *)
Definition onClearSleepTiming (confirmed : bool) : M State unit :=
  (do st <- get ;
   if negb (truthy (sleepTiming st)) then ret tt
   else if negb confirmed then ret tt
   else saveSleepTiming (Some ""))%js.

(** *** Run controls *)

Definition setRunning (b : bool) (st : State) : State :=
  {| sleepTiming := sleepTiming st; emotion := emotion st; running := b;
     paused := paused st; tip := tip st; rawBuffer := rawBuffer st;
     signals := signals st; latestVal := latestVal st;
     localStorage := localStorage st |}.

Definition setPaused (b : bool) (st : State) : State :=
  {| sleepTiming := sleepTiming st; emotion := emotion st; running := running st;
     paused := b; tip := tip st; rawBuffer := rawBuffer st;
     signals := signals st; latestVal := latestVal st;
     localStorage := localStorage st |}.

(** [toggleRunning] and [togglePause], the Start/Stop and Pause/Resume
    buttons. *)
Definition toggleRunning (st : State) : State := setRunning (negb (running st)) st.

Definition togglePause (st : State) : State := setPaused (negb (paused st)) st.

(** *** The sparkline *)

(** [sparkValues]: the last 18 values of the display window, rescaled by
    their own range (at least 1e-6). *)
Definition sparkValues (st : State) : list Q :=
  let arr := map value (slice_last 18 (signals st)) in
  match arr with
  | [] => []
  | x :: xs =>
      let max := Math_max_spread x xs in
      let min := Math_min_spread x xs in
      let range := Math_max (1 # 1000000) (max - min)%Q in
      map (fun v => ((v - min) / range)%Q) arr
  end.

End Dashboard.

(** ** The face tracker (src/components/FaceEmotionTracker.jsx) *)
Module FaceEmotionTracker.
Import Js.

(** [ema(prev, next, alpha)]: one blended entry per key of either object. *)
Definition ema (prev next : gmap string Q) (alpha : Q) : gmap string Q :=
  let keys : gset string := dom prev ∪ dom next in
  foldr (fun k out =>
           let p := nullish (prev !! k) 0%Q in
           let n := nullish (next !! k) 0%Q in
           <[k := (alpha * p + (1 - alpha) * n)%Q]> out)
        ∅ (elements keys).

(** What [onSignal] receives. *)
Record Signal : Type := {
  timestamp : Z;
  calm : Q;
  anxious : Q;
  focus : Q;
  rawExpressions : gmap string Q
}.

(** The parsed body of a reply of the emotion endpoint. *)
Record ApiData : Type := {
  success : bool;
  emotions : option (gmap string Q);
  raw_field : option string;
  error_field : option string
}.

(** The component's state: React state ([running], [error], [raw],
    [smoothed], [lastUpdated]), the [inFlight] ref, and the calls made to
    the [onSignal] prop so far, oldest first. *)
Record State : Type := {
  running : bool;
  error : string;
  raw : option (string + ApiData);
  smoothed : gmap string Q;
  lastUpdated : option Z;
  inFlight : bool;
  emitted : list Signal
}.

Definition setError (e : string) (st : State) : State :=
  {| running := running st; error := e; raw := raw st; smoothed := smoothed st;
     lastUpdated := lastUpdated st; inFlight := inFlight st; emitted := emitted st |}.

Definition setRaw (r : string + ApiData) (st : State) : State :=
  {| running := running st; error := error st; raw := Some r; smoothed := smoothed st;
     lastUpdated := lastUpdated st; inFlight := inFlight st; emitted := emitted st |}.

Definition setSmoothed (m : gmap string Q) (st : State) : State :=
  {| running := running st; error := error st; raw := raw st; smoothed := m;
     lastUpdated := lastUpdated st; inFlight := inFlight st; emitted := emitted st |}.

Definition setLastUpdated (t : Z) (st : State) : State :=
  {| running := running st; error := error st; raw := raw st; smoothed := smoothed st;
     lastUpdated := Some t; inFlight := inFlight st; emitted := emitted st |}.

Definition setInFlight (b : bool) (st : State) : State :=
  {| running := running st; error := error st; raw := raw st; smoothed := smoothed st;
     lastUpdated := lastUpdated st; inFlight := b; emitted := emitted st |}.

Definition onSignal (s : Signal) (st : State) : State :=
  {| running := running st; error := error st; raw := raw st; smoothed := smoothed st;
     lastUpdated := lastUpdated st; inFlight := inFlight st;
     emitted := emitted st ++ [s] |}.

(** The state after the first render. *)
Definition initial : State :=
  {| running := false; error := ""; raw := None;
     smoothed := {[ "happiness" := 0%Q; "neutral" := 0%Q; "sadness" := 0%Q;
                    "anger" := 0%Q; "fear" := 0%Q ]};
     lastUpdated := None; inFlight := false; emitted := [] |}.

(** The signal [mapToSignalsAndEmit(emotions)] builds at clock reading
    [now]. *)
Definition mappedSignal (now : Z) (emotions : gmap string Q) : Signal :=
  let happy := nullish (emotions !! "happiness") 0%Q in
  let neutral := nullish (emotions !! "neutral") 0%Q in
  let sad := nullish (emotions !! "sadness") 0%Q in
  let angry := nullish (emotions !! "anger") 0%Q in
  let fear := nullish (emotions !! "fear") 0%Q in
  let surprised := nullish (emotions !! "surprised") 0%Q in
  let calmRaw := Math_min 1 (happy * 0.7 + neutral * 0.6 - fear * 0.3)%Q in
  let anxiousRaw := Math_min 1 (fear * 0.7 + surprised * 0.5 + angry * 0.4)%Q in
  let focusRaw := Math_min 1 (neutral * 0.6 + (1 - surprised) * 0.3 + happy * 0.1)%Q in
  let calm := Math_max 0 (Math_min 1 calmRaw) in
  let anxious := Math_max 0 (Math_min 1 anxiousRaw) in
  let focus := Math_max 0 (Math_min 1 focusRaw) in
  {| timestamp := now; calm := calm; anxious := anxious;
     focus := focus; rawExpressions := emotions |}.

(** [mapToSignalsAndEmit(emotions)]: builds the signal and hands it to
    [onSignal]. *)
Definition mapToSignalsAndEmit (now : Z) (emotions : gmap string Q) : M State unit :=
  modify (onSignal (mappedSignal now emotions)).

(** The five-entry vector [next] built from a reply's [emotions]. *)
Definition nextOf (em : gmap string Q) : gmap string Q :=
  {[ "happiness" := nullish (em !! "happiness") 0%Q;
     "neutral" := nullish (em !! "neutral") 0%Q;
     "sadness" := nullish (em !! "sadness") 0%Q;
     "anger" := nullish (em !! "anger") 0%Q;
     "fear" := nullish (em !! "fear") 0%Q ]}.

(** [sampleAndSend()]: [smoothing] is the prop (default 0.6), [video]
    whether the video element exists, [api] the outcome of capturing the
    frame and calling the emotion endpoint, [now] the clock reading. *)
Definition sampleAndSend (smoothing : Q) (video : bool)
    (api : Outcome (option ApiData)) (now : Z) : M State unit :=
  (do st <- get ;
   if inFlight st then ret tt
   else if negb video then ret tt
   else
     try_catch
       (run modify (setInFlight true) ;
        do data <- call api ;
        run modify (setInFlight false) ;
        match data with
        | None => ret tt
        | Some d =>
            run modify (setRaw (match raw_field d with
                                | Some r => inl r
                                | None => inr d
                                end)) ;
            match success d, emotions d with
            | true, Some em =>
                let next := nextOf em in
                do cur <- get ;
                let mixed := ema (smoothed cur) next smoothing in
                run modify (setLastUpdated now) ;
                run mapToSignalsAndEmit now next ;
                modify (setSmoothed mixed)
            | _, _ => ret tt
            end
        end)
       (fun err =>
          run modify (setInFlight false) ;
          modify (setError err)))%js.

(** A run of the sampling loop: one [sampleAndSend] per reply. *)
Definition feed (smoothing : Q) (replies : list (Outcome (option ApiData) * Z))
    (st : State) : State :=
  foldl (fun s r => exec (sampleAndSend smoothing true (fst r) (snd r)) s) st replies.

(** [StatBar]: the percentage a bar shows for [value]. *)
Definition StatBar_pct (value : option Q) : Z :=
  Math_round (nullish value 0 * 100)%Q.

(** The five bars of the panel, read from the smoothed vector. *)
Definition bars (st : State) : list (string * Z) :=
  [ ("Happiness", StatBar_pct (smoothed st !! "happiness"));
    ("Neutral", StatBar_pct (smoothed st !! "neutral"));
    ("Sadness", StatBar_pct (smoothed st !! "sadness"));
    ("Anger", StatBar_pct (smoothed st !! "anger"));
    ("Fear", StatBar_pct (smoothed st !! "fear")) ].

End FaceEmotionTracker.

(** ** The camera panel of the dashboard

    The dashboard renders the tracker with [onSignal={handleFaceSignal}]:
    every signal the tracker emits is the argument of the dashboard's
    handler, which reads its [calm] and [focus]. *)
Module CameraPanel.

Definition asFaceSignal (s : FaceEmotionTracker.Signal) : Dashboard.FaceSignal :=
  {| Dashboard.sig_calm := Some (FaceEmotionTracker.calm s);
     Dashboard.sig_focus := Some (FaceEmotionTracker.focus s) |}.

Definition deliver (env : Dashboard.Env) (user : option Dashboard.User)
    (s : FaceEmotionTracker.Signal) : Js.M Dashboard.State unit :=
  Dashboard.handleFaceSignal env user (Some (asFaceSignal s)).

End CameraPanel.

(** ** The chat widget (src/components/ChatBot.jsx) *)
Module ChatBot.
Import Js.

Record Message : Type := { role : string; text : string }.

(** The parsed body of a reply of the voice endpoint. *)
Record VoiceReply : Type := {
  success : bool;
  error : option string;
  transcript : option string;
  replyText : option string;
  audioBase64 : option string
}.

(** The two requests sent to the voice endpoint: the recorded audio with
    the recent history, and a text with the recent history. *)
Inductive Request : Type :=
| Transcription (history : list Message)
| Reply (txt : string) (history : list Message).

(** The backend as [safeFetchJson] sees it: it throws (network error, a
    status that is not ok, invalid JSON), or returns the parsed body, [None]
    for an empty body. *)
Definition Backend : Type := Request -> Outcome (option VoiceReply).

(** The component's state: React state ([messages], [loading], [input],
    [voiceEnabled]), the requests issued so far and the audio payloads
    handed to the player, oldest first. *)
Record State : Type := {
  messages : list Message;
  loading : bool;
  input : string;
  voiceEnabled : bool;
  requests : list Request;
  played : list string
}.

Definition setMessages (f : list Message -> list Message) (st : State) : State :=
  {| messages := f (messages st); loading := loading st; input := input st;
     voiceEnabled := voiceEnabled st; requests := requests st; played := played st |}.

Definition setLoading (b : bool) (st : State) : State :=
  {| messages := messages st; loading := b; input := input st;
     voiceEnabled := voiceEnabled st; requests := requests st; played := played st |}.

Definition setInput (s : string) (st : State) : State :=
  {| messages := messages st; loading := loading st; input := s;
     voiceEnabled := voiceEnabled st; requests := requests st; played := played st |}.

Definition logRequest (r : Request) (st : State) : State :=
  {| messages := messages st; loading := loading st; input := input st;
     voiceEnabled := voiceEnabled st; requests := requests st ++ [r]; played := played st |}.

Definition logPlayed (b : string) (st : State) : State :=
  {| messages := messages st; loading := loading st; input := input st;
     voiceEnabled := voiceEnabled st; requests := requests st; played := played st ++ [b] |}.

Definition initial : State :=
  {| messages := [ {| role := "assistant";
                      text := "Hi — hold the mic and speak. I'll transcribe and reply." |} ];
     loading := false; input := ""; voiceEnabled := true;
     requests := []; played := [] |}.

(** [safeFetchJson(VOICE_URL, ...)]. *)
Definition safeFetchJson (net : Backend) (req : Request) : M State (option VoiceReply) :=
  (run modify (logRequest req) ; call (net req))%js.

(** [setMessages((m) => [...m, msg])]. *)
Definition appendMessage (msg : Message) : M State unit :=
  modify (setMessages (fun m => m ++ [msg])).

(** [resp && resp.success]. *)
Definition succeeded (resp : option VoiceReply) : bool :=
  match resp with
  | Some r => success r
  | None => false
  end.

(** The playback block: when auto-play is on and the reply carries audio,
    the payload is handed to the player; a playback failure is swallowed. *)
Definition playReply (enabled : bool) (resp : option VoiceReply) : M State unit :=
  match resp ≫= audioBase64 with
  | Some b => if enabled && truthy b then modify (logPlayed b) else ret tt
  | None => ret tt
  end.

(** [handleAudioFlow(blob)].  The closure reads [messages] and
    [voiceEnabled] of the render it was created in. *)
Definition handleAudioFlow (net : Backend) : M State unit :=
  (do seen <- get ;
   let history := slice_last 10 (messages seen) in
   run modify (setLoading true) ;
   try_finally
     (try_catch
        (do transResp <- safeFetchJson net (Transcription history) ;
         if negb (succeeded transResp) then
           appendMessage {| role := "assistant";
                            text := or_else (transResp ≫= error)
                                      "Could not transcribe audio." |}
         else
           let transcript := or_else (transResp ≫= transcript) "" in
           if negb (truthy transcript) then
             appendMessage {| role := "assistant"; text := "No speech recognized." |}
           else
             run appendMessage {| role := "user"; text := transcript |} ;
             do textResp <- safeFetchJson net (Reply transcript history) ;
             if negb (succeeded textResp) then
               appendMessage {| role := "assistant";
                                text := or_else (textResp ≫= error)
                                          "Assistant failed to respond." |}
             else
               run appendMessage {| role := "assistant";
                                    text := nullish (textResp ≫= replyText)
                                              "(no reply text)" |} ;
               playReply (voiceEnabled seen) textResp)
        (fun _ =>
           appendMessage {| role := "assistant";
                            text := "Something went wrong processing your audio." |}))
     (modify (setLoading false)))%js.

(** [sendText(txt)]; a missing [txt] is [None]. *)
Definition sendText (net : Backend) (txt : option string) : M State unit :=
  match txt with
  | None => ret tt
  | Some t =>
      if negb (truthy t) || negb (truthy (trim t)) then ret tt
      else
        let text := trim t in
        (do seen <- get ;
         run appendMessage {| role := "user"; text := text |} ;
         run modify (setInput "") ;
         run modify (setLoading true) ;
         try_finally
           (try_catch
              (do data <- safeFetchJson net (Reply text (slice_last 10 (messages seen))) ;
               if negb (succeeded data) then
                 appendMessage {| role := "assistant";
                                  text := or_else (data ≫= error) "Assistant error." |}
               else
                 run appendMessage {| role := "assistant";
                                      text := nullish (data ≫= replyText)
                                                "(no reply text)" |} ;
                 playReply (voiceEnabled seen) data)
              (fun _ =>
                 appendMessage {| role := "assistant";
                                  text := "Failed to reach assistant." |}))
           (modify (setLoading false)))%js
  end.

(** One turn of the conversation: a typed text handed to [sendText], or a
    recording handed to [handleAudioFlow]; each turn meets its own backend. *)
Inductive Turn : Type :=
| Typed (txt : option string)
| Spoken.

Definition takeTurn (net : Backend) (t : Turn) : M State unit :=
  match t with
  | Typed txt => sendText net txt
  | Spoken => handleAudioFlow net
  end.

Definition converse (turns : list (Backend * Turn)) (st : State) : State :=
  foldl (fun s x => exec (takeTurn (fst x) (snd x)) s) st turns.

End ChatBot.

(** * Properties *)

(** ** Specification-side notions *)
Module Spec.

(** The ordered rules of the primary label, each rule applying only when
    the ones above it do not. *)
Inductive label_rule (calm focus : Q) : string -> Prop :=
| rule_calm :
    (0.6 < calm)%Q -> (focus < calm)%Q ->
    label_rule calm focus "calm"
| rule_focused :
    ~ ((0.6 < calm)%Q /\ (focus < calm)%Q) ->
    (0.55 < focus)%Q -> (calm < focus)%Q ->
    label_rule calm focus "focused"
| rule_tense :
    ~ ((0.6 < calm)%Q /\ (focus < calm)%Q) ->
    ~ ((0.55 < focus)%Q /\ (calm < focus)%Q) ->
    (calm < 0.35)%Q -> (focus < 0.4)%Q ->
    label_rule calm focus "tense"
| rule_neutral :
    ~ ((0.6 < calm)%Q /\ (focus < calm)%Q) ->
    ~ ((0.55 < focus)%Q /\ (calm < focus)%Q) ->
    ~ ((calm < 0.35)%Q /\ (focus < 0.4)%Q) ->
    label_rule calm focus "neutral".

(** [r] is [x] clamped to the interval from [lo] to [hi]. *)
Definition clamped_to (lo hi x r : Q) : Prop :=
  ((x < lo)%Q /\ (r == lo)%Q) \/
  ((lo <= x)%Q /\ (x <= hi)%Q /\ (r == x)%Q) \/
  ((hi < x)%Q /\ (r == hi)%Q).

(** [w] holds the [n] most recent entries of [l], in the order of [l]:
    it is the suffix of [l] of length [n], all of [l] when [l] is shorter. *)
Definition most_recent {A : Type} (n : nat) (l w : list A) : Prop :=
  exists older, l = older ++ w /\ length w = Nat.min n (length l).

(** Every entry of an expression vector lies between 0 and 1. *)
Definition in_unit (m : gmap string Q) : Prop :=
  forall k v, m !! k = Some v -> (0 <= v)%Q /\ (v <= 1)%Q.

(** A reply of the emotion endpoint whose scores, if it carries any, lie
    between 0 and 1. *)
Definition reply_in_unit (r : Js.Outcome (option FaceEmotionTracker.ApiData)) : Prop :=
  forall d em,
    r = Js.Returned (Some d) -> FaceEmotionTracker.emotions d = Some em -> in_unit em.

(** The calm, anxious and focus scores of an emitted signal lie between 0
    and 1. *)
Definition unit_signal (s : FaceEmotionTracker.Signal) : Prop :=
  (0 <= FaceEmotionTracker.calm s)%Q /\ (FaceEmotionTracker.calm s <= 1)%Q /\
  (0 <= FaceEmotionTracker.anxious s)%Q /\ (FaceEmotionTracker.anxious s <= 1)%Q /\
  (0 <= FaceEmotionTracker.focus s)%Q /\ (FaceEmotionTracker.focus s <= 1)%Q.

(** A message in the assistant role. *)
Definition assistant_says (t : string) : ChatBot.Message :=
  {| ChatBot.role := "assistant"; ChatBot.text := t |}.

(** A string made of white space only (the empty string included). *)
Fixpoint all_space (s : string) : bool :=
  match s with
  | EmptyString => true
  | String c s' => Js.is_space c && all_space s'
  end.

(** The queue entry of a sensor sample, and of a camera signal. *)
Definition sensorEntry (env : Dashboard.Env) (s : Dashboard.SensorSample) : Dashboard.Sample :=
  {| Dashboard.ts := Dashboard.now env;
     Dashboard.value := Dashboard.sensorValue s;
     Dashboard.time := Dashboard.localeTime env;
     Dashboard.source := None |}.

Definition cameraEntry (env : Dashboard.Env) (sg : Dashboard.FaceSignal) : Dashboard.Sample :=
  {| Dashboard.ts := Dashboard.now env;
     Dashboard.value :=
       Dashboard.mapAffectToValue
         {| Dashboard.sig_calm := Some (Js.nullish (Dashboard.sig_calm sg) 0%Q);
            Dashboard.sig_focus := Some (Js.nullish (Dashboard.sig_focus sg) 0%Q) |};
     Dashboard.time := Dashboard.localeTime env;
     Dashboard.source := Some "camera" |}.

(** [a] to the power [n]. *)
Fixpoint qpow (a : Q) (n : nat) : Q :=
  match n with
  | O => 1%Q
  | S n' => (a * qpow a n')%Q
  end.

(** The names of the five expression scores. *)
Definition expression_keys : gset string :=
  {[ "happiness"; "neutral"; "sadness"; "anger"; "fear" ]}.

(** A string with no white space at either end. *)
Definition clean_start (s : string) : bool :=
  match s with
  | EmptyString => true
  | String c _ => negb (Js.is_space c)
  end.

(** The strings the dashboard hands to [saveSleepTiming]: the trimmed
    answer to the prompt ([onSetSleepTiming]) and the empty string
    ([onClearSleepTiming]), which is the trimmed form of itself. *)
Definition set_argument (v : string) : Prop :=
  exists input, v = Js.trim input.

(** The in-memory sleep timing is what a reload of the page would read. *)
Definition in_sync (st : Dashboard.State) : Prop :=
  Dashboard.sleepTiming st
  = Dashboard.sleepTiming (Dashboard.mount (Dashboard.localStorage st)).

(** A message in the user role. *)
Definition user_says (t : string) : ChatBot.Message :=
  {| ChatBot.role := "user"; ChatBot.text := t |}.

(** The history a request carries. *)
Definition history_of (r : ChatBot.Request) : list ChatBot.Message :=
  match r with
  | ChatBot.Transcription h => h
  | ChatBot.Reply _ h => h
  end.

(** The last message of a log, if any, is the assistant's. *)
Definition ends_with_assistant (log : list ChatBot.Message) : Prop :=
  forall m, last log = Some m -> ChatBot.role m = "assistant".

End Spec.

(** Unfolds the monad of [Js], so that a handler applied to a state
    reduces to the state it leaves. *)
Ltac js_unfold :=
  unfold Js.exec, Js.outcome, Js.try_finally, Js.try_catch, Js.bind,
    Js.get, Js.modify, Js.call, Js.throw, Js.ret.

(** Close a goal describing a chat turn that appended one message, or a
    user message and an answer, by exhibiting the texts. *)
Ltac one_appended :=
  left; eexists; split; [reflexivity | split; reflexivity].

Ltac two_appended tac :=
  right; do 2 eexists;
  split; [rewrite <- app_assoc; reflexivity |];
  split; [rewrite <- app_assoc; reflexivity | tac].

Section Numbers.
Import Js.

Lemma ltb_true (x y : Q) : ltb x y = true <-> (x < y)%Q.
Proof.
  unfold ltb. rewrite Qlt_alt.
  destruct (x ?= y)%Q; split; congruence.
Qed.

Lemma ltb_false (x y : Q) : ltb x y = false <-> ~ (x < y)%Q.
Proof.
  rewrite <- ltb_true. destruct (ltb x y); split; congruence.
Qed.

Lemma gtb_true (x y : Q) : gtb x y = true <-> (y < x)%Q.
Proof. apply ltb_true. Qed.

Lemma gtb_false (x y : Q) : gtb x y = false <-> ~ (y < x)%Q.
Proof. apply ltb_false. Qed.

Lemma Math_min_cases (a b : Q) :
  ((a <= b)%Q /\ Math_min a b = a) \/ ((b < a)%Q /\ Math_min a b = b).
Proof.
  unfold Math_min, Qmin, GenericMinMax.gmin.
  destruct (a ?= b)%Q eqn:E.
  - left. split; [apply Qeq_alt in E; lra | reflexivity].
  - left. split; [apply Qlt_alt in E; lra | reflexivity].
  - right. split; [apply Qgt_alt in E; lra | reflexivity].
Qed.

Lemma Math_max_cases (a b : Q) :
  ((a < b)%Q /\ Math_max a b = b) \/ ((b <= a)%Q /\ Math_max a b = a).
Proof.
  unfold Math_max, Qmax, GenericMinMax.gmax.
  destruct (a ?= b)%Q eqn:E.
  - right. split; [apply Qeq_alt in E; lra | reflexivity].
  - left. split; [apply Qlt_alt in E; lra | reflexivity].
  - right. split; [apply Qgt_alt in E; lra | reflexivity].
Qed.

End Numbers.

Section AffectMapper.
Import Js Dashboard.

Lemma clamp_spec (v a b : Q) :
  (a <= b)%Q -> Spec.clamped_to a b v (clamp v a b).
Proof.
  intros Hab. unfold Spec.clamped_to, clamp.
  destruct (Math_min_cases b v) as [[H1 ->] | [H1 ->]];
    destruct (Math_max_cases a b) as [[H2 E2] | [H2 E2]];
    destruct (Math_max_cases a v) as [[H3 E3] | [H3 E3]];
    rewrite ?E2, ?E3; lra.
Qed.

(** C1. The primary label set by [handleFaceSignal] follows the ordered
    threshold rules, first match winning: calm above 0.6 and above focus
    gives calm; else focus above 0.55 and above calm gives focused; else
    calm below 0.35 and focus below 0.4 gives tense; otherwise neutral.
    The four sample points get the stated labels, and the label stable is
    never produced. *)
Theorem classifier_rule_order :
  (forall env user sg st,
      let calm := nullish (sig_calm sg) 0%Q in
      let focus := nullish (sig_focus sg) 0%Q in
      let st' := exec (handleFaceSignal env user (Some sg)) st in
      primary (emotion st') = classify calm focus /\
      Spec.label_rule calm focus (primary (emotion st'))) /\
  classify 0.8 0.3 = "calm" /\
  classify 0.3 0.7 = "focused" /\
  classify 0.1 0.1 = "tense" /\
  classify 0.5 0.5 = "neutral" /\
  (forall calm focus, classify calm focus <> "stable").
Proof.
  split; [| repeat split; try reflexivity].
  - intros env user sg st calm focus st'.
    assert (Hp : primary (emotion st') = classify calm focus).
    { subst st'. unfold handleFaceSignal; js_unfold.
      simpl. destruct (simulatePush env _ _); reflexivity. }
    split; [exact Hp |]. rewrite Hp. unfold classify.
    destruct (gtb calm 0.6) eqn:A1, (gtb calm focus) eqn:A2; simpl;
      rewrite ?gtb_true, ?gtb_false in *;
      try (apply Spec.rule_calm; assumption);
      (destruct (gtb focus 0.55) eqn:B1, (gtb focus calm) eqn:B2; simpl;
       rewrite ?gtb_true, ?gtb_false in *;
       try (apply Spec.rule_focused; tauto);
       (destruct (ltb calm 0.35) eqn:C1, (ltb focus 0.4) eqn:C2; simpl;
        rewrite ?ltb_true, ?ltb_false in *;
        [ apply Spec.rule_tense; tauto
        | apply Spec.rule_neutral; tauto .. ])).
  - intros calm focus. unfold classify.
    repeat match goal with |- context [if ?b then _ else _] => destruct b end;
      discriminate.
Qed.

(** C2. The trend value of the Affect Mapper is focus*1.25 + calm*0.9
    clamped to the interval from -3 to 3, missing inputs counting as 0;
    calm = focus = 10 gives the raw value 21.5 and the result 3.  The
    mapper is a total function of its two inputs. *)
Theorem mapAffectToValue_clamped :
  (forall arg,
      let raw := (nullish (sig_focus arg) 0 * 1.25 + nullish (sig_calm arg) 0 * 0.9)%Q in
      Spec.clamped_to (-3) 3 raw (mapAffectToValue arg) /\
      (-3 <= mapAffectToValue arg)%Q /\ (mapAffectToValue arg <= 3)%Q) /\
  ((10 * 1.25 + 10 * 0.9 == 21.5)%Q /\
   mapAffectToValue {| sig_calm := Some 10%Q; sig_focus := Some 10%Q |} = 3%Q) /\
  (mapAffectToValue {| sig_calm := None; sig_focus := None |} == 0)%Q.
Proof.
  split; [| split; [split |]]; try reflexivity.
  intros arg raw.
  assert (H : Spec.clamped_to (-3) 3 raw (mapAffectToValue arg)).
  { apply clamp_spec. lra. }
  split; [exact H |].
  destruct H as [[? E] | [[? [? E]] | [? E]]]; rewrite E; lra.
Qed.

End AffectMapper.
Section SignalBuffer.
Import Js Dashboard.

Lemma slice_last_most_recent {A : Type} (n : nat) (l : list A) :
  Spec.most_recent n l (slice_last n l).
Proof.
  exists (take (length l - n) l). unfold slice_last. split.
  - symmetry. apply take_drop.
  - rewrite length_drop. lia.
Qed.

Lemma slice_last_length {A : Type} (n : nat) (l : list A) :
  length (slice_last n l) <= n.
Proof. unfold slice_last. rewrite length_drop. lia. Qed.

(** Truncating before appending does not change the truncated result. *)
Lemma slice_last_app_slice {A : Type} (n : nat) (l t : list A) :
  slice_last n (slice_last n l ++ t) = slice_last n (l ++ t).
Proof.
  unfold slice_last. rewrite !length_app, length_drop.
  destruct (decide (length l <= n)) as [Hle | Hgt].
  - replace (length l - n) with 0 by lia. rewrite Nat.sub_0_r. reflexivity.
  - replace (length l - (length l - n) + length t - n) with (length t) by lia.
    replace (length l + length t - n) with ((length l - n) + length t) by lia.
    rewrite <- (drop_app_le l t (length l - n)) by lia.
    rewrite drop_drop. reflexivity.
Qed.

Lemma mount_buffers (ls : Storage) :
  rawBuffer (mount ls) = [] /\ signals (mount ls) = [].
Proof.
  unfold mount, initialSleepTiming, getItem; js_unfold.
  simpl. destruct (denied ls); simpl; split; reflexivity.
Qed.

(** The buffer invariant: what was enqueued so far splits into what was
    drained and what is still staged, and the display window is the
    truncation of the drained part. *)
Lemma step_invariant (st : State) (e : Event) (log drained : list Sample) :
  log = drained ++ rawBuffer st ->
  signals st = slice_last 160 drained ->
  exists drained',
    log ++ enqueued [e] = drained' ++ rawBuffer (step st e) /\
    signals (step st e) = slice_last 160 drained'.
Proof.
  intros Hlog Hsig. destruct e as [s |]; simpl.
  - exists drained. split; [| exact Hsig].
    rewrite Hlog, <- app_assoc. reflexivity.
  - unfold tick. destruct (rawBuffer st) as [| s q] eqn:Hrb.
    + exists drained. rewrite Hrb. split; [rewrite app_nil_r; exact Hlog | exact Hsig].
    + exists (drained ++ take 4 (s :: q)). simpl. split.
      * rewrite app_nil_r, Hlog, <- app_assoc. f_equal.
        symmetry. apply (take_drop 4 (s :: q)).
      * rewrite Hsig. apply slice_last_app_slice.
Qed.

Lemma replay_invariant (evs : list Event) :
  forall (st : State) (log drained : list Sample),
    log = drained ++ rawBuffer st ->
    signals st = slice_last 160 drained ->
    exists drained',
      log ++ enqueued evs = drained' ++ rawBuffer (replay evs st) /\
      signals (replay evs st) = slice_last 160 drained'.
Proof.
  induction evs as [| e evs IH]; intros st log drained Hlog Hsig.
  - exists drained. simpl. rewrite app_nil_r. split; assumption.
  - destruct (step_invariant st e log drained Hlog Hsig) as (d1 & H1 & H2).
    destruct (IH (step st e) (log ++ enqueued [e]) d1 H1 H2) as (d2 & H3 & H4).
    exists d2. change (replay (e :: evs) st) with (replay evs (step st e)).
    split; [| exact H4].
    replace (enqueued (e :: evs)) with (enqueued [e] ++ enqueued evs)
      by (destruct e; reflexivity).
    rewrite app_assoc. exact H3.
Qed.

(** C3. A drain tick moves up to 4 samples from the head of the staging
    queue to the end of the display window, in order, and keeps the most
    recent 160 entries of the window; a tick on an empty queue changes
    nothing; so after any insertions and drains the window has at most 160
    entries, and they are the most recent drained samples in the order in
    which they were enqueued. *)
Theorem drain_tick_bounded_fifo :
  (forall st, rawBuffer st <> [] ->
     exists taken,
       rawBuffer st = taken ++ rawBuffer (tick st) /\
       length taken = Nat.min 4 (length (rawBuffer st)) /\
       Spec.most_recent 160 (signals st ++ taken) (signals (tick st))) /\
  (forall st, rawBuffer st = [] -> tick st = st) /\
  (forall evs ls,
     let st := replay evs (mount ls) in
     length (signals st) <= 160 /\
     exists drained,
       enqueued evs = drained ++ rawBuffer st /\
       Spec.most_recent 160 drained (signals st)).
Proof.
  split; [| split].
  - intros st Hne. exists (take 4 (rawBuffer st)). unfold tick.
    destruct (rawBuffer st) as [| s q] eqn:Hrb; [congruence |]. simpl signals.
    simpl rawBuffer. split; [symmetry; apply (take_drop 4 (s :: q)) |].
    split; [rewrite length_take; lia |].
    apply slice_last_most_recent.
  - intros st Hrb. unfold tick. rewrite Hrb. reflexivity.
  - intros evs ls st. destruct (mount_buffers ls) as [Hrb Hsig].
    destruct (replay_invariant evs (mount ls) [] []) as (d & H1 & H2).
    + rewrite Hrb. reflexivity.
    + rewrite Hsig. reflexivity.
    + fold st in H1, H2. split.
      * rewrite H2. apply slice_last_length.
      * exists d. split; [exact H1 |]. rewrite H2. apply slice_last_most_recent.
Qed.

(** A cold start: a frame on the empty queue changes nothing; after two
    samples, a frame takes both, in the order they arrived. *)
Lemma drain_tick_bounded_fifo_witness :
  let ls := {| items := ∅; denied := false |} in
  let s1 := {| ts := 1; value := 0.5%Q; time := "10:00:00"; source := None |} in
  let s2 := {| ts := 2; value := 1.5%Q; time := "10:00:01"; source := Some "camera" |} in
  let st := replay [Enqueue s1; Enqueue s2] (mount ls) in
  tick (mount ls) = mount ls /\
  (exists taken,
     rawBuffer st = taken ++ rawBuffer (tick st) /\
     length taken = Nat.min 4 (length (rawBuffer st)) /\
     Spec.most_recent 160 (signals st ++ taken) (signals (tick st))) /\
  signals (tick st) = [s1; s2].
Proof.
  intros ls s1 s2 st. split; [| split].
  - apply (proj1 (proj2 drain_tick_bounded_fifo)). reflexivity.
  - apply (proj1 drain_tick_bounded_fifo). vm_compute. discriminate.
  - reflexivity.
Defined.

End SignalBuffer.
Section Producers.
Import Js Dashboard.

(** The sensor callback, while the feed is running and not paused: it
    completes, leaves the run flags alone and enqueues the sample. *)
Lemma onSensorSignals_enqueues (env : Env) (user : User) (s : SensorSample) (st : State) :
  running st = true -> paused st = false ->
  let st' := exec (onSensorSignals env user s) st in
  outcome (onSensorSignals env user s) st = Returned tt /\
  running st' = true /\ paused st' = false /\
  rawBuffer st' = rawBuffer st ++ [Spec.sensorEntry env s].
Proof.
  intros Hr Hp. unfold onSensorSignals; js_unfold.
  rewrite Hr, Hp. simpl.
  destruct (inferEmotion env s (consent user)) as [[e |] | err]; simpl;
    destruct (simulatePush env _ _) as [[] | err']; simpl;
    repeat split; assumption.
Qed.

Lemma onSensorSignals_failed_inference (env : Env) (user : User) (s : SensorSample)
    (st : State) (err : string) :
  inferEmotion env s (consent user) = Threw err ->
  emotion (exec (onSensorSignals env user s) st) = emotion st /\
  tip (exec (onSensorSignals env user s) st) = tip st.
Proof.
  intros Hi. unfold onSensorSignals; js_unfold.
  destruct (negb (running st) || paused st); simpl; [split; reflexivity |].
  rewrite Hi. simpl.
  destruct (simulatePush env _ _) as [[] | err']; simpl; split; reflexivity.
Qed.

Lemma handleFaceSignal_enqueues (env : Env) (user : option User) (sg : FaceSignal)
    (st : State) :
  outcome (handleFaceSignal env user (Some sg)) st = Returned tt /\
  rawBuffer (exec (handleFaceSignal env user (Some sg)) st)
  = rawBuffer st ++ [Spec.cameraEntry env sg].
Proof.
  unfold handleFaceSignal; js_unfold. simpl.
  destruct (simulatePush env _ _) as [[] | err]; simpl; split; reflexivity.
Qed.

Lemma ingest_enqueues_all (user : User) (feed : list (Env * SensorSample)) :
  forall st, running st = true -> paused st = false ->
    rawBuffer (ingest user feed st)
    = rawBuffer st ++ map (fun x => Spec.sensorEntry (fst x) (snd x)) feed.
Proof.
  induction feed as [| [env s] feed IH]; intros st Hr Hp.
  - simpl. rewrite app_nil_r. reflexivity.
  - change (ingest user ((env, s) :: feed) st)
      with (ingest user feed (exec (onSensorSignals env user s) st)).
    destruct (onSensorSignals_enqueues env user s st Hr Hp) as (_ & Hr' & Hp' & Hb).
    rewrite (IH _ Hr' Hp'), Hb, <- app_assoc. reflexivity.
Qed.

(** C9, counterexample. With an inference service and a backend push
    that both throw, the sensor callback completes and the sample is in the
    staging queue all the same; so is the camera sample when its push
    throws. *)
Lemma failed_sample_is_enqueued :
  let env := {| inferEmotion := fun _ _ => Threw "inference failed";
                simulatePush := fun _ _ => Threw "push failed";
                now := 1000; localeTime := "10:00:00" |} in
  let user := {| id := "u1"; consent := true |} in
  let s := {| neuro := Some {| alpha := Some 0.75%Q; beta := Some 0.25%Q |} |} in
  let sg := {| sig_calm := Some 0.8%Q; sig_focus := Some 0.3%Q |} in
  let st := mount {| items := ∅; denied := false |} in
  rawBuffer st = [] /\
  outcome (onSensorSignals env user s) st = Returned tt /\
  rawBuffer (exec (onSensorSignals env user s) st)
  = [ {| ts := 1000; value := (0.75 - 0.25)%Q; time := "10:00:00"; source := None |} ] /\
  outcome (handleFaceSignal env (Some user) (Some sg)) st = Returned tt /\
  length (rawBuffer (exec (handleFaceSignal env (Some user) (Some sg)) st)) = 1.
Proof. vm_compute. repeat split. Qed.

(** C9, amended. An exception thrown by inference or by the push to the
    backend while a sample is handled is caught inside the handler, which
    completes; the sample is enqueued all the same (a failed sensor
    inference only leaves the displayed emotion and tip as they were), and
    the samples that follow are enqueued as well.  The one failure that
    keeps a sample out of the queue is a failed call to the emotion
    endpoint: the face tracker then emits no signal at all. *)
Theorem producer_failures_are_swallowed :
  (forall env user s st,
     running st = true -> paused st = false ->
     outcome (onSensorSignals env user s) st = Returned tt /\
     rawBuffer (exec (onSensorSignals env user s) st)
     = rawBuffer st ++ [Spec.sensorEntry env s]) /\
  (forall env user s st err,
     inferEmotion env s (consent user) = Threw err ->
     emotion (exec (onSensorSignals env user s) st) = emotion st /\
     tip (exec (onSensorSignals env user s) st) = tip st) /\
  (forall env user sg st,
     outcome (handleFaceSignal env user (Some sg)) st = Returned tt /\
     rawBuffer (exec (handleFaceSignal env user (Some sg)) st)
     = rawBuffer st ++ [Spec.cameraEntry env sg]) /\
  (forall user feed st,
     running st = true -> paused st = false ->
     rawBuffer (ingest user feed st)
     = rawBuffer st ++ map (fun x => Spec.sensorEntry (fst x) (snd x)) feed) /\
  (forall smoothing video err t st,
     FaceEmotionTracker.emitted
       (exec (FaceEmotionTracker.sampleAndSend smoothing video (Threw err) t) st)
     = FaceEmotionTracker.emitted st).
Proof.
  split; [| split; [| split; [| split]]].
  - intros env user s st Hr Hp.
    destruct (onSensorSignals_enqueues env user s st Hr Hp) as (Ho & _ & _ & Hb).
    split; assumption.
  - intros env user s st err. apply onSensorSignals_failed_inference.
  - intros env user sg st. apply handleFaceSignal_enqueues.
  - intros user feed st. apply ingest_enqueues_all.
  - intros smoothing video err t st.
    unfold FaceEmotionTracker.sampleAndSend; js_unfold.
    destruct (FaceEmotionTracker.inFlight st); [reflexivity |].
    destruct video; reflexivity.
Qed.

(** A feed of two samples, the first met by failing services, the second
    by working ones: both are in the queue, in order. *)
Lemma producer_failures_are_swallowed_witness :
  let failing := {| inferEmotion := fun _ _ => Threw "inference failed";
                    simulatePush := fun _ _ => Threw "push failed";
                    now := 1000; localeTime := "10:00:00" |} in
  let working := {| inferEmotion := fun _ _ => Returned None;
                    simulatePush := fun _ _ => Returned tt;
                    now := 2000; localeTime := "10:00:01" |} in
  let user := {| id := "u1"; consent := true |} in
  let s1 := {| neuro := Some {| alpha := Some 0.75%Q; beta := Some 0.25%Q |} |} in
  let s2 := {| neuro := None |} in
  let st := mount {| items := ∅; denied := false |} in
  rawBuffer (ingest user [(failing, s1); (working, s2)] st)
  = rawBuffer st ++ [Spec.sensorEntry failing s1; Spec.sensorEntry working s2].
Proof.
  intros failing working user s1 s2 st.
  apply (proj1 (proj2 (proj2 (proj2 producer_failures_are_swallowed)))
           user [(failing, s1); (working, s2)] st); reflexivity.
Defined.

End Producers.
Section Trimming.
Import Js.

Lemma append_cons (c : ascii) (s t : string) :
  String c s +:+ t = String c (s +:+ t).
Proof. reflexivity. Qed.

Lemma append_assoc (s1 s2 s3 : string) :
  (s1 +:+ s2) +:+ s3 = s1 +:+ (s2 +:+ s3).
Proof.
  induction s1 as [| c s1 IH]; [reflexivity |].
  rewrite !append_cons, IH. reflexivity.
Qed.

Lemma rev_app_append (s1 s2 t : string) :
  String.rev_app (s1 +:+ s2) t = String.rev_app s2 (String.rev_app s1 t).
Proof.
  revert t. induction s1 as [| c s1 IH]; intros t; [reflexivity |].
  rewrite append_cons. apply (IH (String c t)).
Qed.

Lemma rev_app_spec (s t : string) : String.rev_app s t = String.rev s +:+ t.
Proof.
  unfold String.rev. revert t. induction s as [| c s IH]; intros t; [reflexivity |].
  change (String.rev_app s (String c t) = String.rev_app s (String c "") +:+ t).
  rewrite (IH (String c "")), (IH (String c t)), append_assoc. reflexivity.
Qed.

Lemma rev_append (s1 s2 : string) :
  String.rev (s1 +:+ s2) = String.rev s2 +:+ String.rev s1.
Proof.
  unfold String.rev at 1. rewrite rev_app_append, rev_app_spec.
  reflexivity.
Qed.

Lemma rev_involutive (s : string) : String.rev (String.rev s) = s.
Proof.
  induction s as [| c s IH]; [reflexivity |].
  change (String c s) with (String c "" +:+ s) at 1.
  rewrite rev_append, rev_append, IH. reflexivity.
Qed.

Lemma trimStart_clean (s : string) : Spec.clean_start (trimStart s) = true.
Proof.
  induction s as [| c s IH]; simpl; [reflexivity |].
  destruct (is_space c) eqn:E; [exact IH |]. simpl. rewrite E. reflexivity.
Qed.

(** What [trimStart] removes is white space, and nothing else goes. *)
Lemma trimStart_split (s : string) :
  exists w, s = w +:+ trimStart s /\ Spec.all_space w = true.
Proof.
  induction s as [| c s (w & Hw & Hs)]; simpl.
  - exists "". split; reflexivity.
  - destruct (is_space c) eqn:E.
    + exists (String c w). simpl. rewrite E, Hs, append_cons.
      split; [f_equal; exact Hw | reflexivity].
    + exists "". split; reflexivity.
Qed.

Lemma clean_start_prefix (u w : string) :
  Spec.clean_start (u +:+ w) = true -> u <> "" -> Spec.clean_start u = true.
Proof. destruct u as [| c u]; [congruence | rewrite append_cons; simpl; auto]. Qed.

(** The trimmed string has no white space at either end. *)
Lemma trim_clean (s : string) :
  Spec.clean_start (trim s) = true /\ Spec.clean_start (String.rev (trim s)) = true.
Proof.
  unfold trim, trimEnd. split.
  - destruct (trimStart_split (String.rev (trimStart s))) as (w & Hw & _).
    apply (f_equal String.rev) in Hw. rewrite rev_involutive, rev_append in Hw.
    destruct (String.rev (trimStart (String.rev (trimStart s)))) as [| c u] eqn:E;
      [reflexivity |].
    apply (clean_start_prefix _ (String.rev w)); [| discriminate].
    rewrite <- Hw. apply trimStart_clean.
  - rewrite rev_involutive. apply trimStart_clean.
Qed.

Lemma trimStart_fixed (s : string) :
  Spec.clean_start s = true -> trimStart s = s.
Proof.
  destruct s as [| c s]; [reflexivity |]. simpl.
  destruct (is_space c); [discriminate | reflexivity].
Qed.

(** Trimming a trimmed string changes nothing. *)
Lemma trim_idempotent (s : string) : trim (trim s) = trim s.
Proof.
  destruct (trim_clean s) as [Hstart Hend].
  unfold trim at 1. rewrite (trimStart_fixed _ Hstart).
  unfold trimEnd. rewrite (trimStart_fixed _ Hend). apply rev_involutive.
Qed.

End Trimming.
Section SleepTiming.
Import Js Dashboard.

(** What a fresh mount reads back from a storage that can be accessed. *)
Lemma mount_reads_storage (ls : Storage) :
  denied ls = false ->
  sleepTiming (mount ls) = or_else (items ls !! SLEEP_KEY) "".
Proof.
  intros Hd. unfold mount, initialSleepTiming, getItem; js_unfold.
  simpl. rewrite Hd. reflexivity.
Qed.

Lemma mount_denied (ls : Storage) :
  denied ls = true -> sleepTiming (mount ls) = "".
Proof.
  intros Hd. unfold mount, initialSleepTiming, getItem; js_unfold.
  simpl. rewrite Hd. reflexivity.
Qed.

Lemma saveSleepTiming_stores (st : State) (v : string) :
  denied (localStorage st) = false -> truthy v = true ->
  exec (saveSleepTiming (Some v)) st
  = setSleepTiming v
      (setLocalStorage {| items := <[SLEEP_KEY := v]> (items (localStorage st));
                          denied := false |} st).
Proof.
  intros Hd Hv. unfold saveSleepTiming, setItem; js_unfold.
  rewrite Hv. simpl. rewrite Hd. reflexivity.
Qed.

Lemma saveSleepTiming_clears (st : State) (val : option string) :
  denied (localStorage st) = false -> val = None \/ val = Some "" ->
  exec (saveSleepTiming val) st
  = setSleepTiming ""
      (setLocalStorage {| items := delete SLEEP_KEY (items (localStorage st));
                          denied := false |} st).
Proof.
  intros Hd [-> | ->]; unfold saveSleepTiming, removeItem; js_unfold; simpl;
    rewrite Hd; reflexivity.
Qed.

Lemma saveSleepTiming_denied (st : State) (val : option string) :
  denied (localStorage st) = true -> exec (saveSleepTiming val) st = st.
Proof.
  intros Hd. unfold saveSleepTiming, setItem, removeItem; js_unfold.
  destruct val as [v |]; [destruct (truthy v) |]; simpl; rewrite Hd; reflexivity.
Qed.

(** C8. The sleep-timing store round-trips.  While localStorage can be
    accessed, [saveSleepTiming] called with a non-empty value, as the
    dashboard calls it, stores the trimmed string under the key and in the
    in-memory state, so that a later read returns that string; called with
    an empty or missing value it deletes the key and empties the in-memory
    state, so that a later read returns the empty string.  The two call
    sites: the prompt handler passes the trimmed answer, or does nothing
    when that is empty; the Clear button passes the empty string, or does
    nothing.  (When localStorage throws, [saveSleepTiming] changes nothing
    and a read returns the empty string.) *)
Theorem sleep_timing_round_trip :
  forall st,
    (denied (localStorage st) = false ->
       (forall v, Spec.set_argument v -> truthy v = true ->
          let st' := exec (saveSleepTiming (Some v)) st in
          items (localStorage st') !! SLEEP_KEY = Some (trim v) /\
          sleepTiming st' = trim v /\
          sleepTiming (mount (localStorage st')) = trim v /\
          trim v = v) /\
       (forall val, val = None \/ val = Some "" ->
          let st' := exec (saveSleepTiming val) st in
          items (localStorage st') !! SLEEP_KEY = None /\
          sleepTiming st' = "" /\
          sleepTiming (mount (localStorage st')) = "") /\
       (forall input, truthy (trim input) = true ->
          Spec.set_argument (trim input) /\
          exec (onSetSleepTiming (Some input)) st
          = exec (saveSleepTiming (Some (trim input))) st) /\
       (forall input, truthy (trim input) = false ->
          exec (onSetSleepTiming (Some input)) st = st) /\
       (forall confirmed,
          exec (onClearSleepTiming confirmed) st = st \/
          exec (onClearSleepTiming confirmed) st
          = exec (saveSleepTiming (Some "")) st)) /\
    (denied (localStorage st) = true ->
       forall val,
         exec (saveSleepTiming val) st = st /\
         sleepTiming (mount (localStorage st)) = "").
Proof.
  intros st. split.
  - intros Hd. split; [| split; [| split; [| split]]].
    + intros v [input ->] Hv st'. subst st'.
      rewrite trim_idempotent.
      rewrite (saveSleepTiming_stores st (trim input) Hd Hv).
      split; [simpl; apply lookup_insert_eq |]. split; [reflexivity |].
      rewrite mount_reads_storage by reflexivity. simpl.
      rewrite lookup_insert_eq. simpl. rewrite Hv. split; reflexivity.
    + intros val Hval st'. subst st'. rewrite (saveSleepTiming_clears st val Hd Hval).
      split; [simpl; apply lookup_delete_eq |]. split; [reflexivity |].
      rewrite mount_reads_storage by reflexivity. simpl.
      rewrite lookup_delete_eq. reflexivity.
    + intros input Ht. split; [exists input; reflexivity |].
      unfold onSetSleepTiming. rewrite Ht. reflexivity.
    + intros input Ht. unfold onSetSleepTiming. rewrite Ht. reflexivity.
    + intros confirmed. unfold onClearSleepTiming, exec, bind, get.
      destruct (negb (truthy (sleepTiming st))); [left; reflexivity |].
      destruct (negb confirmed); [left | right]; reflexivity.
  - intros Hd val. split; [apply saveSleepTiming_denied; exact Hd |].
    apply mount_denied. exact Hd.
Qed.

(** Saving 23:00-07:00 on a fresh page and reading it back, then clearing
    and reading again. *)
Lemma sleep_timing_round_trip_witness :
  let st0 := mount {| items := ∅; denied := false |} in
  let st1 := exec (saveSleepTiming (Some "23:00-07:00")) st0 in
  let st2 := exec (saveSleepTiming (Some "")) st1 in
  (items (localStorage st1) !! SLEEP_KEY = Some (trim "23:00-07:00") /\
   sleepTiming st1 = trim "23:00-07:00" /\
   sleepTiming (mount (localStorage st1)) = trim "23:00-07:00" /\
   trim "23:00-07:00" = "23:00-07:00") /\
  (items (localStorage st2) !! SLEEP_KEY = None /\
   sleepTiming st2 = "" /\
   sleepTiming (mount (localStorage st2)) = "").
Proof.
  intros st0 st1 st2. split.
  - apply (proj1 (proj1 (sleep_timing_round_trip st0) eq_refl) "23:00-07:00").
    + exists "23:00-07:00". reflexivity.
    + reflexivity.
  - apply (proj1 (proj2 (proj1 (sleep_timing_round_trip st1) eq_refl)) (Some "")).
    right. reflexivity.
Defined.

End SleepTiming.
Section SmoothingFilter.
Import Js FaceEmotionTracker.

(** The blend the filter stores under key [k]. *)
Local Abbreviation blend prev next alpha k :=
  (alpha * nullish (prev !! k) 0 + (1 - alpha) * nullish (next !! k) 0)%Q.

Lemma foldr_insert_lookup (g : string -> Q) (l : list string) (k : string) :
  foldr (fun i out => <[i := g i]> out) (∅ : gmap string Q) l !! k
  = if decide (k ∈ l) then Some (g k) else None.
Proof.
  induction l as [| a l IH]; simpl.
  - rewrite lookup_empty. destruct (decide (k ∈ [])) as [Hin | _]; [| reflexivity].
    apply elem_of_nil in Hin. contradiction.
  - destruct (decide (a = k)) as [-> | Hne].
    + rewrite lookup_insert_eq.
      destruct (decide (k ∈ k :: l)) as [_ | Hn]; [reflexivity |].
      exfalso. apply Hn. apply list_elem_of_here.
    + rewrite lookup_insert_ne by exact Hne. rewrite IH.
      destruct (decide (k ∈ l)) as [Hin | Hn];
        destruct (decide (k ∈ a :: l)) as [Hin' | Hn']; try reflexivity.
      * exfalso. apply Hn'. apply list_elem_of_further. exact Hin.
      * exfalso. apply elem_of_cons in Hin' as [-> | Hin']; [congruence | auto].
Qed.

Lemma ema_lookup (prev next : gmap string Q) (alpha : Q) (k : string) :
  ema prev next alpha !! k
  = if decide (k ∈ dom prev ∪ dom next) then Some (blend prev next alpha k) else None.
Proof.
  unfold ema.
  rewrite (foldr_insert_lookup (fun i => blend prev next alpha i)).
  destruct (decide (k ∈ elements (dom prev ∪ dom next))) as [Hin | Hn];
    destruct (decide (k ∈ dom prev ∪ dom next)) as [Hin' | Hn']; try reflexivity.
  - exfalso. apply Hn'. apply elem_of_elements. exact Hin.
  - exfalso. apply Hn. apply elem_of_elements. exact Hin'.
Qed.

(** C4. The EMA filter has an entry for exactly the keys of either vector
    (their union), each entry being alpha*previous + (1-alpha)*raw with a
    key missing on one side read as 0; so a key seen for the first time is
    blended against 0 and not set to its first observed value. *)
Theorem ema_blends_union_of_keys :
  forall (prev next : gmap string Q) (alpha : Q) (k : string),
    dom (ema prev next alpha) = dom prev ∪ dom next /\
    (k ∈ dom prev ∪ dom next ->
       ema prev next alpha !! k = Some (blend prev next alpha k)) /\
    (k ∉ dom prev ∪ dom next -> ema prev next alpha !! k = None) /\
    (forall v, prev !! k = None -> next !! k = Some v ->
       ema prev next alpha !! k = Some (alpha * 0 + (1 - alpha) * v)%Q) /\
    (forall p, prev !! k = Some p -> next !! k = None ->
       ema prev next alpha !! k = Some (alpha * p + (1 - alpha) * 0)%Q).
Proof.
  intros prev next alpha k.
  assert (Hin : forall i, i ∈ dom prev ∪ dom next ->
                  ema prev next alpha !! i = Some (blend prev next alpha i)).
  { intros i Hi. rewrite ema_lookup. destruct (decide _); [reflexivity | contradiction]. }
  assert (Hout : forall i, i ∉ dom prev ∪ dom next -> ema prev next alpha !! i = None).
  { intros i Hi. rewrite ema_lookup. destruct (decide _); [contradiction | reflexivity]. }
  split; [| split; [apply Hin | split; [apply Hout | split]]].
  - apply set_eq. intros i. rewrite elem_of_dom.
    destruct (decide (i ∈ dom prev ∪ dom next)) as [Hi | Hi].
    + rewrite (Hin i Hi). split; [intros _; exact Hi | intros _; eexists; reflexivity].
    + rewrite (Hout i Hi). split; [intros [? ?]; discriminate | contradiction].
  - intros v Hp Hn. rewrite Hin.
    + rewrite Hp, Hn. reflexivity.
    + apply elem_of_union_r. apply elem_of_dom. rewrite Hn. eexists; reflexivity.
  - intros p Hp Hn. rewrite Hin.
    + rewrite Hp, Hn. reflexivity.
    + apply elem_of_union_l. apply elem_of_dom. rewrite Hp. eexists; reflexivity.
Qed.

(** A key first seen with value 1 under alpha = 0.6 is stored as 0.4. *)
Lemma ema_blends_union_of_keys_witness :
  ema (∅ : gmap string Q) {[ "happiness" := 1%Q ]} 0.6 !! "happiness"
  = Some (0.6 * 0 + (1 - 0.6) * 1)%Q /\
  (0.6 * 0 + (1 - 0.6) * 1 == 0.4)%Q.
Proof.
  split.
  - apply (proj1 (proj2 (proj2 (proj2
             (ema_blends_union_of_keys ∅ {[ "happiness" := 1%Q ]} 0.6 "happiness"))))).
    + reflexivity.
    + reflexivity.
  - reflexivity.
Defined.

End SmoothingFilter.
Section FaceTracker.
Import Js FaceEmotionTracker.

(** What one sampling round does to the smoothed vector and to the emitted
    signals: nothing, or one filter update with one emission. *)
Lemma sampleAndSend_cases (alpha : Q) (video : bool)
    (api : Outcome (option ApiData)) (now : Z) (st : State) :
  let st' := exec (sampleAndSend alpha video api now) st in
  (smoothed st' = smoothed st /\ emitted st' = emitted st) \/
  (exists d em,
      api = Returned (Some d) /\ success d = true /\ emotions d = Some em /\
      smoothed st' = ema (smoothed st) (nextOf em) alpha /\
      emitted st' = emitted st ++ [mappedSignal now (nextOf em)]).
Proof.
  unfold sampleAndSend, mapToSignalsAndEmit; js_unfold.
  destruct (inFlight st); [left; split; reflexivity |].
  destruct video; [| left; split; reflexivity].
  destruct api as [[d |] | err]; simpl; try (left; split; reflexivity).
  destruct (success d) eqn:Hs; [| left; split; reflexivity].
  destruct (emotions d) as [em |] eqn:He; [| left; split; reflexivity].
  right. exists d, em. simpl. repeat split; first [assumption | reflexivity].
Qed.

(** C5. On a successful filter update the signal handed to the application
    callback is computed from the raw vector of the reply alone, whatever
    the smoothed state is, while the displayed vector becomes the EMA blend
    of the previous smoothed vector with that raw vector. *)
Theorem emitted_signal_uses_raw_vector :
  forall (smoothing : Q) (now : Z) (d : ApiData) (em : gmap string Q),
    success d = true -> emotions d = Some em ->
    (forall st, inFlight st = false ->
       let st' := exec (sampleAndSend smoothing true (Returned (Some d)) now) st in
       emitted st' = emitted st ++ [mappedSignal now (nextOf em)] /\
       smoothed st' = ema (smoothed st) (nextOf em) smoothing) /\
    (forall st1 st2, inFlight st1 = false -> inFlight st2 = false ->
       last (emitted (exec (sampleAndSend smoothing true (Returned (Some d)) now) st1))
       = last (emitted (exec (sampleAndSend smoothing true (Returned (Some d)) now) st2))).
Proof.
  intros smoothing now d em Hs He.
  assert (Hstep : forall st, inFlight st = false ->
            let st' := exec (sampleAndSend smoothing true (Returned (Some d)) now) st in
            emitted st' = emitted st ++ [mappedSignal now (nextOf em)] /\
            smoothed st' = ema (smoothed st) (nextOf em) smoothing).
  { intros st Hf.
    unfold sampleAndSend, mapToSignalsAndEmit; js_unfold.
    rewrite Hf. simpl. rewrite Hs, He. simpl. split; reflexivity. }
  split; [exact Hstep |].
  intros st1 st2 H1 H2.
  destruct (Hstep st1 H1) as [-> _]. destruct (Hstep st2 H2) as [-> _].
  rewrite !last_snoc. reflexivity.
Qed.

(** The same reply met in two different smoothed states: the same signal is
    emitted, the displayed happiness differs. *)
Lemma emitted_signal_uses_raw_vector_witness :
  let d := {| success := true; emotions := Some {[ "happiness" := 1%Q ]};
              raw_field := None; error_field := None |} in
  let warm := setSmoothed {[ "happiness" := 1%Q ]} initial in
  let r1 := exec (sampleAndSend 0.6 true (Returned (Some d)) 7) initial in
  let r2 := exec (sampleAndSend 0.6 true (Returned (Some d)) 7) warm in
  last (emitted r1) = last (emitted r2) /\
  smoothed r1 !! "happiness" <> smoothed r2 !! "happiness".
Proof.
  intros d warm r1 r2. split.
  - apply (proj2 (emitted_signal_uses_raw_vector 0.6 7 d {[ "happiness" := 1%Q ]}
                    eq_refl eq_refl)); reflexivity.
  - vm_compute. discriminate.
Defined.

Lemma nextOf_in_unit (em : gmap string Q) :
  Spec.in_unit em -> Spec.in_unit (nextOf em).
Proof.
  intros Hem k v Hk. unfold nextOf in Hk.
  assert (Hd : forall key, (0 <= nullish (em !! key) 0)%Q /\ (nullish (em !! key) 0 <= 1)%Q).
  { intros key. unfold nullish. destruct (em !! key) as [x |] eqn:E; simpl.
    - exact (Hem key x E).
    - split; lra. }
  repeat (apply lookup_insert_Some in Hk as [[_ <-] | [_ Hk]]; [apply Hd |]).
  apply lookup_singleton_Some in Hk as [_ <-]. apply Hd.
Qed.

Lemma ema_in_unit (prev next : gmap string Q) (alpha : Q) :
  (0 <= alpha)%Q -> (alpha <= 1)%Q ->
  Spec.in_unit prev -> Spec.in_unit next -> Spec.in_unit (ema prev next alpha).
Proof.
  intros Ha0 Ha1 Hp Hn k v Hk. rewrite ema_lookup in Hk.
  destruct (decide (k ∈ dom prev ∪ dom next)); [| discriminate].
  injection Hk as <-.
  assert (Hpk : (0 <= nullish (prev !! k) 0)%Q /\ (nullish (prev !! k) 0 <= 1)%Q).
  { unfold nullish. destruct (prev !! k) as [x |] eqn:E; simpl;
      [exact (Hp k x E) | split; lra]. }
  assert (Hnk : (0 <= nullish (next !! k) 0)%Q /\ (nullish (next !! k) 0 <= 1)%Q).
  { unfold nullish. destruct (next !! k) as [x |] eqn:E; simpl;
      [exact (Hn k x E) | split; lra]. }
  destruct Hpk, Hnk. split; nra.
Qed.

Lemma clamp01_unit (x : Q) :
  (0 <= Math_max 0 (Math_min 1 x))%Q /\ (Math_max 0 (Math_min 1 x) <= 1)%Q.
Proof.
  destruct (Math_min_cases 1 x) as [[H1 ->] | [H1 ->]];
    [destruct (Math_max_cases 0 1) as [[H2 ->] | [H2 ->]]
    | destruct (Math_max_cases 0 x) as [[H2 ->] | [H2 ->]]];
    split; lra.
Qed.

Lemma mappedSignal_unit (now : Z) (emotions : gmap string Q) :
  Spec.unit_signal (mappedSignal now emotions).
Proof.
  unfold Spec.unit_signal, mappedSignal. simpl.
  repeat split; apply clamp01_unit.
Qed.

Lemma feed_emitted_unit (alpha : Q) (replies : list (Outcome (option ApiData) * Z)) :
  forall st, Forall Spec.unit_signal (emitted st) ->
             Forall Spec.unit_signal (emitted (feed alpha replies st)).
Proof.
  induction replies as [| [api now] replies IH]; intros st Hst; [exact Hst |].
  apply IH. simpl.
  destruct (sampleAndSend_cases alpha true api now st)
    as [[_ ->] | (d & em & _ & _ & _ & _ & ->)]; [exact Hst |].
  apply Forall_app. split; [exact Hst |].
  apply Forall_cons. split; [apply mappedSignal_unit | apply Forall_nil_2].
Qed.

Lemma feed_smoothed_unit (alpha : Q) (replies : list (Outcome (option ApiData) * Z)) :
  (0 <= alpha)%Q -> (alpha <= 1)%Q ->
  Forall (fun r => Spec.reply_in_unit (fst r)) replies ->
  forall st, Spec.in_unit (smoothed st) ->
             Spec.in_unit (smoothed (feed alpha replies st)).
Proof.
  intros Ha0 Ha1. induction replies as [| [api now] replies IH]; intros Hall st Hst;
    [exact Hst |].
  apply Forall_cons in Hall as [Hr Hall].
  apply (IH Hall). simpl.
  destruct (sampleAndSend_cases alpha true api now st)
    as [[-> _] | (d & em & Hapi & _ & He & -> & _)]; [exact Hst |].
  apply ema_in_unit; try assumption.
  apply nextOf_in_unit. exact (Hr d em Hapi He).
Qed.

Lemma initial_in_unit : Spec.in_unit (smoothed initial).
Proof.
  intros k v Hk. simpl in Hk.
  repeat (apply lookup_insert_Some in Hk as [[_ <-] | [_ Hk]]; [split; lra |]).
  apply lookup_singleton_Some in Hk as [_ <-]. split; lra.
Qed.

(** C6, counterexample. A reply whose happiness score is 5 drives the
    smoothed happiness to 2: nothing clamps the smoothed vector. *)
Lemma smoothed_exceeds_unit_interval :
  let d := {| success := true; emotions := Some {[ "happiness" := 5%Q ]};
              raw_field := None; error_field := None |} in
  exists v,
    smoothed (feed 0.6 [(Returned (Some d), 0%Z)] initial) !! "happiness" = Some v /\
    (v == 2)%Q /\ ~ (v <= 1)%Q.
Proof.
  eexists. split; [vm_compute; reflexivity |]. split.
  - reflexivity.
  - unfold Qle. simpl. lia.
Qed.

(** C6, amended. Starting from the all-zero vector, every entry of the
    smoothed vector stays between 0 and 1 after any sequence of sampling
    rounds, provided alpha and every raw score received lie between 0 and
    1: the blend is a weighted mean.  Neither the filter nor the mapping
    clamps the smoothed vector; what the mapping clamps is the emitted
    calm, anxious and focus scores, and those lie between 0 and 1 whatever
    is received. *)
Theorem smoothed_within_unit_interval :
  (forall alpha replies,
     (0 <= alpha)%Q -> (alpha <= 1)%Q ->
     Forall (fun r => Spec.reply_in_unit (fst r)) replies ->
     Spec.in_unit (smoothed (feed alpha replies initial))) /\
  (forall alpha replies,
     Forall Spec.unit_signal (emitted (feed alpha replies initial))).
Proof.
  split.
  - intros alpha replies Ha0 Ha1 Hall.
    apply feed_smoothed_unit; try assumption. apply initial_in_unit.
  - intros alpha replies. apply feed_emitted_unit. apply Forall_nil_2.
Qed.

(** Two rounds, a reply with scores 1 and 0.5 and then a failed request:
    the smoothed vector is within bounds. *)
Lemma smoothed_within_unit_interval_witness :
  let d := {| success := true;
              emotions := Some {[ "happiness" := 1%Q; "neutral" := 0.5%Q ]};
              raw_field := None; error_field := None |} in
  Spec.in_unit
    (smoothed (feed 0.6 [(Returned (Some d), 0%Z); (Threw "offline", 1%Z)] initial)).
Proof.
  intros d. apply (proj1 smoothed_within_unit_interval).
  - unfold Qle. simpl. lia.
  - unfold Qle. simpl. lia.
  - apply Forall_cons. split; [| apply Forall_cons; split; [| apply Forall_nil_2]].
    + intros d' em Hr He. simpl in Hr. injection Hr as <-.
      simpl in He. injection He as <-.
      intros k v Hk.
      apply lookup_insert_Some in Hk as [[_ <-] | [_ Hk]];
        [unfold Qle; simpl; lia |].
      apply lookup_singleton_Some in Hk as [_ <-]. unfold Qle; simpl; lia.
    + intros d' em Hr. simpl in Hr. discriminate.
Defined.

End FaceTracker.
Section ChatTurns.
Import Js ChatBot.

(** C7. In the voice flow, when the transcription call returns a body that
    is missing or whose success is false, exactly one assistant message is
    appended (the server's error, or the fallback text) and the only
    request of the turn is the transcription; when it succeeds with an
    empty transcript, exactly one assistant message saying that no speech
    was recognized is appended, and again the reply request is not made. *)
Theorem transcription_failure_aborts_turn :
  forall (net : Backend) (st : State) (resp : option VoiceReply),
    let asked := Transcription (slice_last 10 (messages st)) in
    let st' := exec (handleAudioFlow net) st in
    net asked = Returned resp ->
    (succeeded resp = false ->
       messages st' = messages st ++
         [Spec.assistant_says (or_else (resp ≫= error) "Could not transcribe audio.")] /\
       requests st' = requests st ++ [asked]) /\
    (succeeded resp = true -> truthy (or_else (resp ≫= transcript) "") = false ->
       messages st' = messages st ++ [Spec.assistant_says "No speech recognized."] /\
       requests st' = requests st ++ [asked]).
Proof.
  intros net st resp asked st' Hnet.
  subst st'. unfold handleAudioFlow, safeFetchJson, appendMessage; js_unfold.
  simpl. fold asked. rewrite Hnet. simpl.
  split.
  - intros Hs. rewrite Hs. simpl. split; reflexivity.
  - intros Hs Ht. rewrite Hs. simpl. rewrite Ht. simpl. split; reflexivity.
Qed.

(** When the transcription call throws instead (network failure, a status
    that is not ok, a body that is not JSON), the turn also ends with one
    assistant message and without the reply request. *)
Lemma transcription_throw_aborts_turn (net : Backend) (st : State) (err : string) :
  let asked := Transcription (slice_last 10 (messages st)) in
  let st' := exec (handleAudioFlow net) st in
  net asked = Threw err ->
  messages st' = messages st ++
    [Spec.assistant_says "Something went wrong processing your audio."] /\
  requests st' = requests st ++ [asked].
Proof.
  intros asked st' Hnet.
  subst st'. unfold handleAudioFlow, safeFetchJson, appendMessage; js_unfold.
  simpl. fold asked. rewrite Hnet. simpl. split; reflexivity.
Qed.

(** A body with success false and an error text, and a successful body
    with no transcript. *)
Lemma transcription_failure_aborts_turn_witness :
  let refused := {| success := false; error := Some "audio too short";
                    transcript := None; replyText := None; audioBase64 := None |} in
  let silent := {| success := true; error := None;
                   transcript := Some ""; replyText := None; audioBase64 := None |} in
  let asked := Transcription (slice_last 10 (messages initial)) in
  (messages (exec (handleAudioFlow (fun _ => Returned (Some refused))) initial)
   = messages initial ++ [Spec.assistant_says "audio too short"] /\
   requests (exec (handleAudioFlow (fun _ => Returned (Some refused))) initial)
   = [asked]) /\
  (messages (exec (handleAudioFlow (fun _ => Returned (Some silent))) initial)
   = messages initial ++ [Spec.assistant_says "No speech recognized."] /\
   requests (exec (handleAudioFlow (fun _ => Returned (Some silent))) initial)
   = [asked]).
Proof.
  intros refused silent asked. split.
  - apply (proj1 (transcription_failure_aborts_turn
                    (fun _ => Returned (Some refused)) initial (Some refused) eq_refl)).
    reflexivity.
  - apply (proj2 (transcription_failure_aborts_turn
                    (fun _ => Returned (Some silent)) initial (Some silent) eq_refl));
      reflexivity.
Defined.

Lemma trimStart_all_space (s : string) :
  Spec.all_space s = true -> trimStart s = "".
Proof.
  induction s as [| c s IH]; simpl; [reflexivity |].
  destruct (is_space c); simpl; [exact IH | discriminate].
Qed.

Lemma trim_all_space (s : string) :
  Spec.all_space s = true -> trim s = "".
Proof.
  intros H. unfold trim. rewrite (trimStart_all_space s H). reflexivity.
Qed.

(** C10. [sendText] called with a missing value, the empty string or a
    string of white space only does nothing: it completes, the state is
    the one before the call (no message appended, no request issued, no
    field changed). *)
Theorem sendText_blank_is_noop :
  forall (net : Backend) (st : State) (txt : option string),
    txt = None \/ txt = Some "" \/
    (exists t, txt = Some t /\ Spec.all_space t = true) ->
    sendText net txt st = (Returned tt, st) /\
    messages (exec (sendText net txt) st) = messages st /\
    requests (exec (sendText net txt) st) = requests st.
Proof.
  intros net st txt H.
  assert (E : sendText net txt st = (Returned tt, st)).
  { destruct H as [-> | [-> | (t & -> & Ht)]]; try reflexivity.
    unfold sendText. rewrite (trim_all_space t Ht). simpl.
    rewrite orb_true_r. reflexivity. }
  js_unfold. rewrite E. repeat split.
Qed.

(** Three blanks typed into the input: a backend that would answer is
    never asked. *)
Lemma sendText_blank_is_noop_witness :
  let net : Backend := fun _ =>
    Returned (Some {| success := true; error := None; transcript := None;
                      replyText := Some "hello"; audioBase64 := None |}) in
  sendText net (Some "   ") initial = (Returned tt, initial) /\
  messages (exec (sendText net (Some "   ")) initial) = messages initial /\
  requests (exec (sendText net (Some "   ")) initial) = requests initial.
Proof.
  intros net. apply (sendText_blank_is_noop net initial (Some "   ")).
  right; right. exists "   ". split; reflexivity.
Defined.

End ChatTurns.
Section DrainProgress.
Import Js Dashboard.

Lemma slice_last_all {A : Type} (n : nat) (l : list A) :
  length l <= n -> slice_last n l = l.
Proof.
  intros H. unfold slice_last. replace (length l - n) with 0 by lia. reflexivity.
Qed.

Lemma slice_last_snoc_last {A : Type} (n : nat) (l t : list A) (x : A) :
  0 < n -> last t = Some x -> last (slice_last n (l ++ t)) = Some x.
Proof.
  intros Hn Ht. apply last_Some in Ht as [t' ->].
  unfold slice_last. rewrite !app_assoc.
  rewrite drop_app_le by (rewrite !length_app; simpl; lia).
  apply last_snoc.
Qed.

(** X1. After a tick on a queue that is not empty, the value handed to the
    numeric display is the value of the newest entry of the display
    window, and that entry is the last sample the tick took. *)
Theorem tick_shows_newest_value :
  forall st, rawBuffer st <> [] ->
    exists s,
      last (take 4 (rawBuffer st)) = Some s /\
      last (signals (tick st)) = Some s /\
      latestVal (tick st) = value s.
Proof.
  intros st Hne. unfold tick.
  destruct (rawBuffer st) as [| s0 q] eqn:Hrb; [congruence |].
  assert (Hl : is_Some (last (take 4 (s0 :: q)))).
  { apply last_is_Some. simpl. discriminate. }
  destruct Hl as [s Hs]. exists s. split; [exact Hs |].
  assert (Hw : last (slice_last 160 (signals st ++ take 4 (s0 :: q))) = Some s).
  { apply slice_last_snoc_last; [lia | exact Hs]. }
  simpl signals. simpl latestVal. simpl in Hw. split; [exact Hw |].
  simpl. rewrite Hw. reflexivity.
Qed.

Lemma tick_shows_newest_value_witness :
  let s1 := {| ts := 1; value := 0.5%Q; time := "10:00:00"; source := None |} in
  let s2 := {| ts := 2; value := 1.5%Q; time := "10:00:01"; source := Some "camera" |} in
  let st := replay [Enqueue s1; Enqueue s2] (mount {| items := ∅; denied := false |}) in
  exists s,
    last (take 4 (rawBuffer st)) = Some s /\
    last (signals (tick st)) = Some s /\
    latestVal (tick st) = value s.
Proof.
  intros s1 s2 st. apply (tick_shows_newest_value st). vm_compute. discriminate.
Defined.

Lemma ticks_formula (n : nat) (st : State) :
  length (signals st) <= 160 ->
  rawBuffer (Nat.iter n tick st) = drop (4 * n) (rawBuffer st) /\
  signals (Nat.iter n tick st)
  = slice_last 160 (signals st ++ take (4 * n) (rawBuffer st)).
Proof.
  intros Hlen. induction n as [| n [IHr IHs]].
  - simpl. rewrite app_nil_r, slice_last_all by exact Hlen. split; reflexivity.
  - change (Nat.iter (S n) tick st) with (tick (Nat.iter n tick st)).
    replace (4 * S n) with (4 * n + 4) by lia.
    generalize dependent (Nat.iter n tick st). intros cur IHr IHs.
    unfold tick. destruct (rawBuffer cur) as [| s q] eqn:Hrb.
    + rewrite IHs. symmetry in IHr. apply drop_nil_inv in IHr.
      rewrite Hrb, drop_ge by lia. rewrite !take_ge by lia. split; reflexivity.
    + change (drop 4 (s :: q) = drop (4 * n + 4) (rawBuffer st) /\
              slice_last 160 (signals cur ++ take 4 (s :: q))
              = slice_last 160 (signals st ++ take (4 * n + 4) (rawBuffer st))).
      rewrite IHs, IHr. split.
      * rewrite drop_drop. reflexivity.
      * rewrite slice_last_app_slice, <- app_assoc, take_take_drop.
        reflexivity.
Qed.

(** X2. Starting with a display window of at most 160 entries, [n] ticks
    move the first 4n staged samples (all of them when there are fewer)
    to the window and keep its last 160 entries.  So once 4n reaches the
    queue length the queue is empty; and when window and queue together
    hold at most 160 samples, no sample is lost or reordered. *)
Theorem ticks_drain_in_order :
  forall n st, length (signals st) <= 160 ->
    let st' := Nat.iter n tick st in
    (rawBuffer st' = drop (4 * n) (rawBuffer st) /\
     signals st' = slice_last 160 (signals st ++ take (4 * n) (rawBuffer st))) /\
    (length (rawBuffer st) <= 4 * n ->
       rawBuffer st' = [] /\
       signals st' = slice_last 160 (signals st ++ rawBuffer st)) /\
    (length (signals st) + length (rawBuffer st) <= 160 ->
       signals st' ++ rawBuffer st' = signals st ++ rawBuffer st).
Proof.
  intros n st Hlen st'. destruct (ticks_formula n st Hlen) as [Hr Hs].
  fold st' in Hr, Hs. split; [split; assumption |]. split.
  - intros Hall. rewrite Hr, Hs. rewrite drop_ge, take_ge by lia. split; reflexivity.
  - intros Hcap. rewrite Hr, Hs. rewrite slice_last_all.
    + rewrite <- app_assoc, take_drop. reflexivity.
    + rewrite length_app, length_take. lia.
Qed.

(** Six staged samples on a fresh page: one tick leaves two staged, two
    ticks leave none, and the window then holds all six in order. *)
Lemma ticks_drain_in_order_witness :
  let mk := fun t : Z => {| ts := t; value := inject_Z t; time := "10:00:00";
                            source := None |} in
  let fed := replay (Enqueue <$> (mk <$> [1; 2; 3; 4; 5; 6]%Z))
                    (mount {| items := ∅; denied := false |}) in
  length (rawBuffer (Nat.iter 1 tick fed)) = 2 /\
  (rawBuffer (Nat.iter 2 tick fed) = [] /\
   signals (Nat.iter 2 tick fed) = slice_last 160 (signals fed ++ rawBuffer fed)) /\
  signals (Nat.iter 2 tick fed) ++ rawBuffer (Nat.iter 2 tick fed)
  = signals fed ++ rawBuffer fed.
Proof.
  intros mk fed. split; [reflexivity |]. split.
  - apply (proj1 (proj2 (ticks_drain_in_order 2 fed ltac:(vm_compute; lia)))).
    vm_compute. lia.
  - apply (proj2 (proj2 (ticks_drain_in_order 2 fed ltac:(vm_compute; lia)))).
    vm_compute. lia.
Defined.

End DrainProgress.
Section ProducersMore.
Import Js Dashboard.

Lemma clamp_inside (v a b : Q) :
  (a < v)%Q -> (v < b)%Q -> clamp v a b = v.
Proof.
  intros Ha Hb. unfold clamp.
  destruct (Math_min_cases b v) as [[H1 E1] | [H1 E1]]; [lra |]. rewrite E1.
  destruct (Math_max_cases a v) as [[H2 E2] | [H2 E2]]; [exact E2 | lra].
Qed.

(** X3. A signal emitted by the face tracker, delivered to the dashboard,
    enqueues exactly one camera sample whose value is focus*1.25 + calm*0.9
    of that signal, between 0 and 2.15: on the tracker's signals the clamp
    to [-3,3] never cuts. *)
Theorem camera_sample_is_unclamped :
  forall env user t em st,
    let sg := FaceEmotionTracker.mappedSignal t em in
    let st' := exec (CameraPanel.deliver env user sg) st in
    exists s,
      rawBuffer st' = rawBuffer st ++ [s] /\
      source s = Some "camera" /\
      value s = (FaceEmotionTracker.focus sg * 1.25 + FaceEmotionTracker.calm sg * 0.9)%Q /\
      (0 <= value s)%Q /\ (value s <= 2.15)%Q.
Proof.
  intros env user t em st sg st'.
  destruct (handleFaceSignal_enqueues env user (CameraPanel.asFaceSignal sg) st)
    as [_ Hb].
  exists (Spec.cameraEntry env (CameraPanel.asFaceSignal sg)).
  split; [exact Hb |]. split; [reflexivity |].
  destruct (mappedSignal_unit t em) as (Hc0 & Hc1 & _ & _ & Hf0 & Hf1).
  fold sg in Hc0, Hc1, Hf0, Hf1.
  assert (Hv : value (Spec.cameraEntry env (CameraPanel.asFaceSignal sg))
               = (FaceEmotionTracker.focus sg * 1.25 + FaceEmotionTracker.calm sg * 0.9)%Q).
  { change (clamp (FaceEmotionTracker.focus sg * 1.25
                    + FaceEmotionTracker.calm sg * 0.9) (-3) 3
            = (FaceEmotionTracker.focus sg * 1.25 + FaceEmotionTracker.calm sg * 0.9)%Q).
    apply clamp_inside; lra. }
  rewrite Hv. repeat split; lra.
Qed.

Lemma toggle_twice (st : State) :
  togglePause (togglePause st) = st /\ toggleRunning (toggleRunning st) = st.
Proof.
  destruct st as [? ? r p ? ? ? ? ?]. unfold togglePause, toggleRunning. simpl.
  rewrite !negb_involutive. split; reflexivity.
Qed.

Lemma onSensorSignals_gated (env : Env) (user : User) (s : SensorSample) (st : State) :
  running st = false \/ paused st = true ->
  onSensorSignals env user s st = (Returned tt, st).
Proof.
  intros H. unfold onSensorSignals; js_unfold.
  destruct H as [-> | ->]; [reflexivity |]. rewrite orb_true_r. reflexivity.
Qed.

Lemma ingest_gated (user : User) (feed : list (Env * SensorSample)) (st : State) :
  running st = false \/ paused st = true -> ingest user feed st = st.
Proof.
  intros H. induction feed as [| [env s] feed IH]; [reflexivity |].
  change (ingest user ((env, s) :: feed) st)
    with (ingest user feed (exec (onSensorSignals env user s) st)).
  unfold exec. rewrite (onSensorSignals_gated env user s st H). exact IH.
Qed.

(** X4. While the feed is stopped or paused the sensor callback drops
    every sample: it completes and leaves the whole state as it was,
    whatever the services would do.  Pausing and resuming brings ingestion
    back; the camera handler, in contrast, enqueues its sample also while
    paused. *)
Theorem pause_gates_sensor_only :
  (forall env user s st,
     running st = false \/ paused st = true ->
     onSensorSignals env user s st = (Returned tt, st)) /\
  (forall user feed feed' st,
     running st = true -> paused st = false ->
     ingest user feed (togglePause st) = togglePause st /\
     rawBuffer (ingest user feed' (togglePause (ingest user feed (togglePause st))))
     = rawBuffer st ++ map (fun x => Spec.sensorEntry (fst x) (snd x)) feed') /\
  (forall env user sg st,
     paused st = true ->
     rawBuffer (exec (handleFaceSignal env user (Some sg)) st)
     = rawBuffer st ++ [Spec.cameraEntry env sg]).
Proof.
  split; [apply onSensorSignals_gated |]. split.
  - intros user feed feed' st Hr Hp.
    assert (Hg : ingest user feed (togglePause st) = togglePause st).
    { apply ingest_gated. right. unfold togglePause. simpl. rewrite Hp. reflexivity. }
    split; [exact Hg |]. rewrite Hg, (proj1 (toggle_twice st)).
    apply ingest_enqueues_all; assumption.
  - intros env user sg st _. apply handleFaceSignal_enqueues.
Qed.

(** A running page is paused, fed one sample, resumed and fed another:
    only the second is in the queue. *)
Lemma pause_gates_sensor_only_witness :
  let env := {| inferEmotion := fun _ _ => Returned None;
                simulatePush := fun _ _ => Returned tt;
                now := 1000; localeTime := "10:00:00" |} in
  let user := {| id := "u1"; consent := true |} in
  let s1 := {| neuro := Some {| alpha := Some 0.75%Q; beta := Some 0.25%Q |} |} in
  let s2 := {| neuro := None |} in
  let st := mount {| items := ∅; denied := false |} in
  ingest user [(env, s1)] (togglePause st) = togglePause st /\
  rawBuffer (ingest user [(env, s2)] (togglePause (ingest user [(env, s1)] (togglePause st))))
  = rawBuffer st ++ [Spec.sensorEntry env s2].
Proof.
  intros env user s1 s2 st.
  apply (proj1 (proj2 pause_gates_sensor_only) user [(env, s1)] [(env, s2)] st);
    reflexivity.
Defined.

Lemma getTip_not_waiting (p : string) :
  truthy p = true -> getTip p <> "Waiting for signals...".
Proof.
  intros Hp. unfold getTip. rewrite Hp. simpl.
  repeat match goal with |- context [if ?b then _ else _] => destruct b end;
    discriminate.
Qed.

Lemma or_else_truthy (o : option string) (d : string) :
  truthy d = true -> truthy (or_else o d) = true.
Proof.
  intros Hd. unfold or_else. destruct o as [s |]; [| exact Hd].
  destruct (truthy s) eqn:E; [exact E | exact Hd].
Qed.

(** X5. When sensor inference returns an object, the displayed emotion is
    its normalised form: the label is never empty (a missing or empty one
    becomes neutral), missing scores become 0, and the tip is the one of
    that label, never the waiting text.  When inference returns nothing,
    emotion and tip stay as they were. *)
Theorem sensor_emotion_is_normalised :
  forall env user s st,
    running st = true -> paused st = false ->
    let st' := exec (onSensorSignals env user s) st in
    (forall e, inferEmotion env s (consent user) = Returned (Some e) ->
       primary (emotion st') = or_else (em_primary e) "neutral" /\
       truthy (primary (emotion st')) = true /\
       calm (scores (emotion st')) = nullish (em_calm e) 0%Q /\
       focus (scores (emotion st')) = nullish (em_focus e) 0%Q /\
       tip st' = getTip (primary (emotion st')) /\
       tip st' <> "Waiting for signals...") /\
    (inferEmotion env s (consent user) = Returned None ->
       emotion st' = emotion st /\ tip st' = tip st).
Proof.
  intros env user s st Hr Hp st'. subst st'.
  unfold onSensorSignals; js_unfold. rewrite Hr, Hp. simpl. split.
  - intros e He. rewrite He. simpl.
    destruct (simulatePush env _ _) as [[] | err]; simpl;
      (repeat split; try reflexivity;
       [ apply or_else_truthy; reflexivity
       | apply getTip_not_waiting; apply or_else_truthy; reflexivity ]).
  - intros He. rewrite He. simpl.
    destruct (simulatePush env _ _) as [[] | err]; simpl; split; reflexivity.
Qed.

Lemma sensor_emotion_is_normalised_witness :
  let e := {| em_primary := Some ""; em_calm := Some 0.7%Q; em_focus := None |} in
  let env := {| inferEmotion := fun _ _ => Returned (Some e);
                simulatePush := fun _ _ => Threw "push failed";
                now := 1000; localeTime := "10:00:00" |} in
  let user := {| id := "u1"; consent := true |} in
  let s := {| neuro := None |} in
  let st' := exec (onSensorSignals env user s) (mount {| items := ∅; denied := false |}) in
  primary (emotion st') = "neutral" /\
  truthy (primary (emotion st')) = true /\
  calm (scores (emotion st')) = 0.7%Q /\
  focus (scores (emotion st')) = 0%Q /\
  tip st' = getTip (primary (emotion st')) /\
  tip st' <> "Waiting for signals...".
Proof.
  intros e env user s st'.
  apply (proj1 (sensor_emotion_is_normalised env user s
                  (mount {| items := ∅; denied := false |}) eq_refl eq_refl) e).
  reflexivity.
Defined.

Lemma classify_labels (calm focus : Q) :
  classify calm focus = "calm" \/ classify calm focus = "focused" \/
  classify calm focus = "tense" \/ classify calm focus = "neutral".
Proof.
  unfold classify.
  repeat match goal with |- context [if ?b then _ else _] => destruct b end; auto.
Qed.

(** X6. After a camera signal the tip is the one of the label just set; it
    is never the waiting text, and it is the fallback text (the one that
    starts with Stable) exactly when the label is neutral. *)
Theorem face_tip_follows_label :
  forall env user sg st,
    let st' := exec (handleFaceSignal env user (Some sg)) st in
    tip st' = getTip (primary (emotion st')) /\
    tip st' <> "Waiting for signals..." /\
    (tip st' = "Stable — hydrate and blink." <-> primary (emotion st') = "neutral").
Proof.
  intros env user sg st st'.
  assert (H : primary (emotion st')
              = classify (nullish (sig_calm sg) 0%Q) (nullish (sig_focus sg) 0%Q) /\
              tip st' = getTip (primary (emotion st'))).
  { subst st'. unfold handleFaceSignal; js_unfold. simpl.
    destruct (simulatePush env _ _); split; reflexivity. }
  destruct H as [Hp Ht]. split; [exact Ht |]. rewrite Ht, Hp.
  destruct (classify_labels (nullish (sig_calm sg) 0%Q) (nullish (sig_focus sg) 0%Q))
    as [-> | [-> | [-> | ->]]]; (split; [discriminate |]); split;
    first [discriminate | reflexivity].
Qed.

End ProducersMore.
Section Sparkline.
Import Js Dashboard.

Lemma max_spread_ge_first (xs : list Q) :
  forall x, (x <= Math_max_spread x xs)%Q.
Proof.
  unfold Math_max_spread. induction xs as [| y xs IH]; intros x; simpl; [lra |].
  specialize (IH (Math_max x y)).
  destruct (Math_max_cases x y) as [[H E] | [H E]]; rewrite E in *; lra.
Qed.

Lemma max_spread_ge (xs : list Q) :
  forall x v, In v (x :: xs) -> (v <= Math_max_spread x xs)%Q.
Proof.
  induction xs as [| y xs IH]; intros x v Hin.
  - destruct Hin as [<- | []]. unfold Math_max_spread. simpl. lra.
  - change (Math_max_spread x (y :: xs)) with (Math_max_spread (Math_max x y) xs).
    destruct Hin as [<- | [<- | Hin]].
    + pose proof (max_spread_ge_first xs (Math_max x y)).
      destruct (Math_max_cases x y) as [[H1 E] | [H1 E]]; rewrite E in *; lra.
    + pose proof (max_spread_ge_first xs (Math_max x y)).
      destruct (Math_max_cases x y) as [[H1 E] | [H1 E]]; rewrite E in *; lra.
    + apply IH. right. exact Hin.
Qed.

Lemma max_spread_in (xs : list Q) :
  forall x, In (Math_max_spread x xs) (x :: xs).
Proof.
  induction xs as [| y xs IH]; intros x; [left; reflexivity |].
  change (Math_max_spread x (y :: xs)) with (Math_max_spread (Math_max x y) xs).
  destruct (IH (Math_max x y)) as [E | Hin].
  - rewrite <- E. destruct (Math_max_cases x y) as [[_ ->] | [_ ->]];
      [right; left | left]; reflexivity.
  - right. right. exact Hin.
Qed.

Lemma min_spread_le_first (xs : list Q) :
  forall x, (Math_min_spread x xs <= x)%Q.
Proof.
  unfold Math_min_spread. induction xs as [| y xs IH]; intros x; simpl; [lra |].
  specialize (IH (Math_min x y)).
  destruct (Math_min_cases x y) as [[H E] | [H E]]; rewrite E in *; lra.
Qed.

Lemma min_spread_le (xs : list Q) :
  forall x v, In v (x :: xs) -> (Math_min_spread x xs <= v)%Q.
Proof.
  induction xs as [| y xs IH]; intros x v Hin.
  - destruct Hin as [<- | []]. unfold Math_min_spread. simpl. lra.
  - change (Math_min_spread x (y :: xs)) with (Math_min_spread (Math_min x y) xs).
    destruct Hin as [<- | [<- | Hin]].
    + pose proof (min_spread_le_first xs (Math_min x y)).
      destruct (Math_min_cases x y) as [[H1 E] | [H1 E]]; rewrite E in *; lra.
    + pose proof (min_spread_le_first xs (Math_min x y)).
      destruct (Math_min_cases x y) as [[H1 E] | [H1 E]]; rewrite E in *; lra.
    + apply IH. right. exact Hin.
Qed.

Lemma min_spread_in (xs : list Q) :
  forall x, In (Math_min_spread x xs) (x :: xs).
Proof.
  induction xs as [| y xs IH]; intros x; [left; reflexivity |].
  change (Math_min_spread x (y :: xs)) with (Math_min_spread (Math_min x y) xs).
  destruct (IH (Math_min x y)) as [E | Hin].
  - rewrite <- E. destruct (Math_min_cases x y) as [[_ ->] | [_ ->]];
      [left | right; left]; reflexivity.
  - right. right. exact Hin.
Qed.

(** The range used by the sparkline is positive and covers the spread. *)
Lemma spark_range (lo hi : Q) :
  (0 < Math_max (1 # 1000000) (hi - lo))%Q /\
  (hi - lo <= Math_max (1 # 1000000) (hi - lo))%Q /\
  ((1 # 1000000) <= hi - lo -> Math_max (1 # 1000000) (hi - lo) == hi - lo)%Q.
Proof.
  destruct (Math_max_cases (1 # 1000000) (hi - lo)) as [[H ->] | [H ->]];
    repeat split; try lra; intros; lra.
Qed.

Lemma lookup_map {A B : Type} (f : A -> B) (l : list A) (i : nat) :
  map f l !! i = f <$> (l !! i).
Proof.
  revert i. induction l as [| x l IH]; intros [| i]; simpl; auto.
Qed.

Lemma lookup_In {A : Type} (l : list A) (i : nat) (x : A) :
  l !! i = Some x -> In x l.
Proof.
  revert i. induction l as [| y l IH]; intros [| i] H; simpl in *;
    try discriminate.
  - injection H as ->. left. reflexivity.
  - right. eapply IH. exact H.
Qed.

(** X7. The sparkline redraws the last 18 values of the display window in
    their order, one entry per value (none for an empty window), each
    entry between 0 and 1.  The entry of a value is (value - lowest) /
    range, where lowest is the smallest value of those 18 and range is the
    larger of 1e-6 and their spread: so a smallest value is drawn at 0, a
    largest value is drawn at 1 when the spread is at least 1e-6, and a
    larger value is never drawn below a smaller one. *)
Theorem sparkValues_normalised :
  forall st,
    let arr := map value (slice_last 18 (signals st)) in
    length (sparkValues st) = Nat.min 18 (length (signals st)) /\
    Forall (fun v => (0 <= v)%Q /\ (v <= 1)%Q) (sparkValues st) /\
    (forall i v, arr !! i = Some v ->
       exists w lo range,
         sparkValues st !! i = Some w /\
         In lo arr /\ (forall u, In u arr -> (lo <= u)%Q) /\
         ((1 # 1000000) <= range)%Q /\
         (forall a b, In a arr -> In b arr -> (b - a <= range)%Q) /\
         ((range == 1 # 1000000)%Q \/
          exists a b, In a arr /\ In b arr /\ (range == b - a)%Q) /\
         (w == (v - lo) / range)%Q /\
         ((forall u, In u arr -> (v <= u)%Q) -> (w == 0)%Q) /\
         ((forall u, In u arr -> (u <= v)%Q) ->
          (exists a, In a arr /\ ((1 # 1000000) <= v - a)%Q) -> (w == 1)%Q)) /\
    (forall i j v v' w w',
       arr !! i = Some v -> arr !! j = Some v' ->
       sparkValues st !! i = Some w -> sparkValues st !! j = Some w' ->
       (v <= v')%Q -> (w <= w')%Q).
Proof.
  intros st arr. unfold sparkValues. fold arr.
  assert (Hlen : length arr = Nat.min 18 (length (signals st))).
  { unfold arr. rewrite length_map. unfold slice_last. rewrite length_drop. lia. }
  destruct arr as [| x xs] eqn:Harr.
  - split; [exact Hlen |]. split; [constructor |]. split.
    + intros i v H. destruct i; discriminate.
    + intros i j v v' w w' H. destruct i; discriminate.
  - set (hi := Math_max_spread x xs). set (lo := Math_min_spread x xs).
    destruct (spark_range lo hi) as (Hpos & Hcov & Hexact).
    set (range := Math_max (1 # 1000000) (hi - lo)) in *.
    assert (Hlo : forall u, In u (x :: xs) -> (lo <= u)%Q)
      by (intros u Hu; apply min_spread_le; exact Hu).
    assert (Hhi : forall u, In u (x :: xs) -> (u <= hi)%Q)
      by (intros u Hu; apply max_spread_ge; exact Hu).
    assert (Hlo_in : In lo (x :: xs)) by apply min_spread_in.
    assert (Hhi_in : In hi (x :: xs)) by apply max_spread_in.
    assert (Hfloor : ((1 # 1000000) <= range)%Q).
    { unfold range.
      destruct (Math_max_cases (1 # 1000000) (hi - lo)) as [[H ->] | [H ->]]; lra. }
    split; [rewrite length_map; exact Hlen |]. split; [| split].
    + apply Forall_map. apply List.Forall_forall. intros v Hv.
      pose proof (Hhi v Hv). pose proof (Hlo v Hv). split.
      * apply Qle_shift_div_l; [exact Hpos | lra].
      * apply Qle_shift_div_r; [exact Hpos | lra].
    + intros i v Hi. pose proof (lookup_In _ _ _ Hi) as Hv.
      exists ((v - lo) / range)%Q, lo, range.
      split; [rewrite lookup_map, Hi; reflexivity |].
      split; [exact Hlo_in |]. split; [exact Hlo |]. split; [exact Hfloor |].
      split; [| split; [| split; [| split]]].
      * intros a b Ha Hb. pose proof (Hlo a Ha). pose proof (Hhi b Hb). lra.
      * unfold range.
        destruct (Math_max_cases (1 # 1000000) (hi - lo)) as [[_ E] | [_ E]];
          rewrite E.
        -- right. exists lo, hi.
           split; [exact Hlo_in |]. split; [exact Hhi_in | reflexivity].
        -- left. reflexivity.
      * reflexivity.
      * intros Hmin. pose proof (Hmin lo Hlo_in). pose proof (Hlo v Hv).
        assert (E : (v - lo == 0)%Q) by lra. rewrite E. unfold Qdiv. ring.
      * intros Hmax (a & Ha & Hspread).
        pose proof (Hmax hi Hhi_in). pose proof (Hhi v Hv). pose proof (Hlo a Ha).
        assert (Hr : (range == hi - lo)%Q) by (apply Hexact; lra).
        assert (E : (v - lo == range)%Q) by lra.
        rewrite E. field. lra.
    + intros i j v v' w w' Hi Hj Hw Hw' Hle.
      rewrite lookup_map, Hi in Hw. rewrite lookup_map, Hj in Hw'.
      simpl in Hw, Hw'. injection Hw as <-. injection Hw' as <-.
      unfold Qdiv. apply Qmult_le_compat_r; [lra |].
      apply Qinv_le_0_compat. lra.
Qed.

(** A window holding the values 2, 4 and 3: the first is drawn at 0, the
    second at 1. *)
Lemma sparkValues_normalised_witness :
  let mk := fun v : Z => {| ts := v; value := inject_Z v; time := "10:00:00";
                            source := None |} in
  let st := tick (replay (Enqueue <$> (mk <$> [2; 4; 3]%Z))
                         (mount {| items := ∅; denied := false |})) in
  (exists w, sparkValues st !! 0%nat = Some w /\ (w == 0)%Q) /\
  (exists w, sparkValues st !! 1%nat = Some w /\ (w == 1)%Q).
Proof.
  intros mk st. split.
  - destruct (proj1 (proj2 (proj2 (sparkValues_normalised st))) 0%nat 2%Q eq_refl)
      as (w & lo & range & Hw & _ & _ & _ & _ & _ & _ & Hzero & _).
    exists w. split; [exact Hw |]. apply Hzero.
    intros u Hu. vm_compute in Hu.
    destruct Hu as [<- | [<- | [<- | []]]]; unfold Qle; simpl; lia.
  - destruct (proj1 (proj2 (proj2 (sparkValues_normalised st))) 1%nat 4%Q eq_refl)
      as (w & lo & range & Hw & _ & _ & _ & _ & _ & _ & _ & Hone).
    exists w. split; [exact Hw |]. apply Hone.
    + intros u Hu. vm_compute in Hu.
      destruct Hu as [<- | [<- | [<- | []]]]; unfold Qle; simpl; lia.
    + exists 2%Q. split; [vm_compute; left; reflexivity |].
      unfold Qle. simpl. lia.
Defined.

End Sparkline.
Section SleepTimingMore.
Import Js Dashboard.

Lemma localStorage_mount (ls : Storage) : localStorage (mount ls) = ls.
Proof.
  unfold mount, initialSleepTiming, getItem; js_unfold. simpl.
  destruct (denied ls); reflexivity.
Qed.

Lemma saveSleepTiming_in_sync (st : State) (val : option string) :
  Spec.in_sync st -> Spec.in_sync (exec (saveSleepTiming val) st).
Proof.
  intros Hst. destruct (denied (localStorage st)) eqn:Hd.
  - rewrite saveSleepTiming_denied by exact Hd. exact Hst.
  - unfold Spec.in_sync. destruct val as [v |]; [destruct (truthy v) eqn:Hv |].
    + rewrite (saveSleepTiming_stores st v Hd Hv).
      rewrite mount_reads_storage by reflexivity. simpl.
      rewrite lookup_insert_eq. simpl. rewrite Hv. reflexivity.
    + assert (v = "") as ->.
      { unfold truthy in Hv. apply negb_false_iff in Hv.
        apply String.eqb_eq in Hv. exact Hv. }
      rewrite (saveSleepTiming_clears st (Some "") Hd) by (right; reflexivity).
      rewrite mount_reads_storage by reflexivity. simpl.
      rewrite lookup_delete_eq. reflexivity.
    + rewrite (saveSleepTiming_clears st None Hd) by (left; reflexivity).
      rewrite mount_reads_storage by reflexivity. simpl.
      rewrite lookup_delete_eq. reflexivity.
Qed.

(** X8. The sleep timing held in memory is always the one a reload would
    read from localStorage: this holds after mounting, and saving,
    answering the prompt, clearing, a producer's enqueue and a frame's
    drain all keep it, whether or not localStorage can be accessed. *)
Theorem sleep_timing_stays_in_sync :
  (forall ls, Spec.in_sync (mount ls)) /\
  (forall st, Spec.in_sync st ->
     (forall val, Spec.in_sync (exec (saveSleepTiming val) st)) /\
     (forall input, Spec.in_sync (exec (onSetSleepTiming input) st)) /\
     (forall confirmed, Spec.in_sync (exec (onClearSleepTiming confirmed) st)) /\
     (forall e, Spec.in_sync (step st e))).
Proof.
  split.
  - intros ls. unfold Spec.in_sync. rewrite localStorage_mount. reflexivity.
  - intros st Hst. split; [| split; [| split]].
    + intros val. apply saveSleepTiming_in_sync. exact Hst.
    + intros [input |]; [| exact Hst]. unfold onSetSleepTiming.
      destruct (negb (truthy (trim input))); [exact Hst |].
      apply saveSleepTiming_in_sync. exact Hst.
    + intros confirmed. unfold onClearSleepTiming, exec, bind, get.
      destruct (negb (truthy (sleepTiming st))); [exact Hst |].
      destruct (negb confirmed); [exact Hst |].
      apply saveSleepTiming_in_sync. exact Hst.
    + intros [s |]; simpl; [exact Hst |].
      unfold tick. destruct (rawBuffer st); exact Hst.
Qed.

(** A page mounted over a stored timing, then an answer to the prompt. *)
Lemma sleep_timing_stays_in_sync_witness :
  let ls := {| items := {[ SLEEP_KEY := "22:00-06:00" ]}; denied := false |} in
  Spec.in_sync (exec (onSetSleepTiming (Some " 23:30-06:30 ")) (mount ls)).
Proof.
  intros ls.
  apply (proj1 (proj2 (proj2 sleep_timing_stays_in_sync (mount ls)
                         (proj1 sleep_timing_stays_in_sync ls)))).
Defined.

(** X9. Answering the sleep-timing prompt, while localStorage can be
    accessed: an answer that is not blank is saved trimmed, so that what is
    held in memory and read back after a reload is not empty and has no
    white space at either end; cancelling the prompt changes nothing. *)
Theorem prompt_saves_trimmed_answer :
  forall st,
    exec (onSetSleepTiming None) st = st /\
    (denied (localStorage st) = false ->
     forall input, truthy (trim input) = true ->
       let st' := exec (onSetSleepTiming (Some input)) st in
       sleepTiming st' = trim input /\
       sleepTiming (mount (localStorage st')) = trim input /\
       sleepTiming st' <> "" /\
       Spec.clean_start (sleepTiming st') = true /\
       Spec.clean_start (String.rev (sleepTiming st')) = true).
Proof.
  intros st. split; [reflexivity |]. intros Hd input Ht st'.
  assert (E : st' = exec (saveSleepTiming (Some (trim input))) st).
  { subst st'. unfold onSetSleepTiming. rewrite Ht. reflexivity. }
  rewrite E, (saveSleepTiming_stores st (trim input) Hd Ht).
  rewrite mount_reads_storage by reflexivity. simpl.
  rewrite lookup_insert_eq. simpl. rewrite Ht.
  split; [reflexivity |]. split; [reflexivity |]. split.
  - intros Hempty. rewrite Hempty in Ht. discriminate.
  - apply trim_clean.
Qed.

Lemma prompt_saves_trimmed_answer_witness :
  let st := mount {| items := ∅; denied := false |} in
  let st' := exec (onSetSleepTiming (Some "  11pm-7am ")) st in
  sleepTiming st' = trim "  11pm-7am " /\
  sleepTiming (mount (localStorage st')) = trim "  11pm-7am " /\
  sleepTiming st' <> "" /\
  Spec.clean_start (sleepTiming st') = true /\
  Spec.clean_start (String.rev (sleepTiming st')) = true.
Proof.
  intros st.
  apply (proj2 (prompt_saves_trimmed_answer st) eq_refl "  11pm-7am "). reflexivity.
Defined.

(** X10. The Clear button: with nothing held in memory, or when the user
    does not confirm, nothing changes; when the user confirms and
    localStorage can be accessed, the key is deleted, the in-memory value
    is emptied and a reload reads the empty string. *)
Theorem clear_sleep_timing_cases :
  forall st,
    (sleepTiming st = "" ->
       forall confirmed, exec (onClearSleepTiming confirmed) st = st) /\
    exec (onClearSleepTiming false) st = st /\
    (sleepTiming st <> "" -> denied (localStorage st) = false ->
       let st' := exec (onClearSleepTiming true) st in
       items (localStorage st') !! SLEEP_KEY = None /\
       sleepTiming st' = "" /\
       sleepTiming (mount (localStorage st')) = "").
Proof.
  intros st. split; [| split].
  - intros He confirmed. unfold onClearSleepTiming, exec, bind, get.
    rewrite He. reflexivity.
  - unfold onClearSleepTiming, exec, bind, get.
    destruct (negb (truthy (sleepTiming st))); reflexivity.
  - intros Hne Hd st'.
    assert (Ht : truthy (sleepTiming st) = true).
    { unfold truthy. apply negb_true_iff. apply String.eqb_neq. exact Hne. }
    assert (E : st' = exec (saveSleepTiming (Some "")) st).
    { subst st'. unfold onClearSleepTiming, exec, bind, get. rewrite Ht. reflexivity. }
    rewrite E, (saveSleepTiming_clears st (Some "") Hd) by (right; reflexivity).
    rewrite mount_reads_storage by reflexivity. simpl.
    rewrite lookup_delete_eq. repeat split; reflexivity.
Qed.

Lemma clear_sleep_timing_cases_witness :
  let st := mount {| items := {[ SLEEP_KEY := "22:00-06:00" ]}; denied := false |} in
  let st' := exec (onClearSleepTiming true) st in
  items (localStorage st') !! SLEEP_KEY = None /\
  sleepTiming st' = "" /\
  sleepTiming (mount (localStorage st')) = "".
Proof.
  intros st.
  apply (proj2 (proj2 (clear_sleep_timing_cases st))); [vm_compute; discriminate |].
  reflexivity.
Defined.

End SleepTimingMore.
Section FaceTrackerMore.
Import Js FaceEmotionTracker.

Local Abbreviation blend' prev next alpha k :=
  (alpha * nullish (prev !! k) 0 + (1 - alpha) * nullish (next !! k) 0)%Q.

Lemma sampleAndSend_skipped (alpha : Q) (video : bool)
    (api : Outcome (option ApiData)) (t : Z) (st : State) :
  inFlight st = true \/ video = false ->
  sampleAndSend alpha video api t st = (Returned tt, st).
Proof.
  intros H. unfold sampleAndSend; js_unfold.
  destruct (inFlight st); [reflexivity |].
  destruct H as [H | ->]; [discriminate | reflexivity].
Qed.

Lemma sampleAndSend_releases (alpha : Q) (video : bool)
    (api : Outcome (option ApiData)) (t : Z) (st : State) :
  inFlight st = false ->
  inFlight (exec (sampleAndSend alpha video api t) st) = false /\
  outcome (sampleAndSend alpha video api t) st = Returned tt.
Proof.
  intros Hf. unfold sampleAndSend, mapToSignalsAndEmit; js_unfold. rewrite Hf.
  destruct video; [| split; [exact Hf | reflexivity]].
  destruct api as [[d |] | err]; simpl; try (split; reflexivity).
  destruct (success d); [| split; reflexivity].
  destruct (emotions d); split; reflexivity.
Qed.

(** X11. The in-flight guard of the sampling loop: a round met while a
    request is pending, or without a video element, does nothing at all;
    any other round completes without throwing and leaves the guard
    released, whatever the endpoint did; so no round of a loop that starts
    idle is ever skipped for a stuck guard. *)
Theorem sampling_guard_is_released :
  (forall alpha video api t st,
     inFlight st = true \/ video = false ->
     sampleAndSend alpha video api t st = (Returned tt, st)) /\
  (forall alpha video api t st,
     inFlight st = false ->
     inFlight (exec (sampleAndSend alpha video api t) st) = false /\
     outcome (sampleAndSend alpha video api t) st = Returned tt) /\
  (forall alpha replies st,
     inFlight st = false -> inFlight (feed alpha replies st) = false).
Proof.
  split; [apply sampleAndSend_skipped |]. split; [apply sampleAndSend_releases |].
  intros alpha replies. induction replies as [| [api t] replies IH]; intros st Hf;
    [exact Hf |].
  change (feed alpha ((api, t) :: replies) st)
    with (feed alpha replies (exec (sampleAndSend alpha true api t) st)).
  apply IH. apply sampleAndSend_releases. exact Hf.
Qed.

(** A failed request, an empty body and a good reply in a row. *)
Lemma sampling_guard_is_released_witness :
  let d := {| success := true; emotions := Some {[ "happiness" := 1%Q ]};
              raw_field := None; error_field := None |} in
  inFlight (feed 0.6 [(Threw "offline", 1%Z); (Returned None, 2%Z);
                      (Returned (Some d), 3%Z)] initial) = false.
Proof.
  intros d. apply (proj2 (proj2 sampling_guard_is_released)). reflexivity.
Defined.



Lemma ema_dom (prev next : gmap string Q) (alpha : Q) :
  dom (ema prev next alpha) = dom prev ∪ dom next.
Proof.
  apply set_eq. intros i. rewrite elem_of_dom, ema_lookup.
  destruct (decide (i ∈ dom prev ∪ dom next)) as [Hi | Hi].
  - split; [intros _; exact Hi | intros _; eexists; reflexivity].
  - split; [intros [? ?]; discriminate | contradiction].
Qed.

Lemma nextOf_dom (em : gmap string Q) : dom (nextOf em) = Spec.expression_keys.
Proof.
  unfold nextOf, Spec.expression_keys.
  rewrite !dom_insert_L, dom_singleton_L. set_solver.
Qed.

Lemma nextOf_ignores (em : gmap string Q) (k : string) (x : Q) :
  k ∉ Spec.expression_keys -> nextOf (<[k := x]> em) = nextOf em.
Proof.
  intros Hk. unfold nextOf.
  assert (H : forall key, key ∈ Spec.expression_keys ->
                <[k := x]> em !! key = em !! key).
  { intros key Hin. apply lookup_insert_ne. intros ->. contradiction. }
  rewrite !H by (unfold Spec.expression_keys; set_solver). reflexivity.
Qed.

(** X13. The displayed vector has the five expression scores as its
    entries, no more and no fewer, after any run of the sampling loop:
    whatever other scores a reply carries never enter it. *)
Theorem smoothed_keeps_five_keys :
  forall alpha replies,
    dom (smoothed (feed alpha replies initial)) = Spec.expression_keys.
Proof.
  intros alpha replies.
  assert (H : forall st, dom (smoothed st) = Spec.expression_keys ->
                dom (smoothed (feed alpha replies st)) = Spec.expression_keys).
  { induction replies as [| [api t] replies IH]; intros st Hst; [exact Hst |].
    change (feed alpha ((api, t) :: replies) st)
      with (feed alpha replies (exec (sampleAndSend alpha true api t) st)).
    apply IH.
    destruct (sampleAndSend_cases alpha true api t st)
      as [[-> _] | (d & em & _ & _ & _ & -> & _)]; [exact Hst |].
    rewrite ema_dom, Hst, nextOf_dom. set_solver. }
  apply H. simpl. unfold Spec.expression_keys.
  rewrite !dom_insert_L, dom_singleton_L. set_solver.
Qed.

(** X14. A score the reply carries under any other name than the five
    (surprised, for one) changes neither the displayed vector nor the
    signal handed to the application. *)
Theorem extra_scores_are_ignored :
  forall alpha t d d' em k x st,
    k ∉ Spec.expression_keys ->
    emotions d = Some em -> emotions d' = Some (<[k := x]> em) ->
    success d' = success d ->
    smoothed (exec (sampleAndSend alpha true (Returned (Some d')) t) st)
    = smoothed (exec (sampleAndSend alpha true (Returned (Some d)) t) st) /\
    emitted (exec (sampleAndSend alpha true (Returned (Some d')) t) st)
    = emitted (exec (sampleAndSend alpha true (Returned (Some d)) t) st).
Proof.
  intros alpha t d d' em k x st Hk He He' Hs.
  unfold sampleAndSend, mapToSignalsAndEmit; js_unfold.
  destruct (inFlight st); [split; reflexivity |]. simpl.
  rewrite Hs, He, He'. destruct (success d); simpl; [| split; reflexivity].
  rewrite (nextOf_ignores em k x Hk). split; reflexivity.
Qed.

Lemma extra_scores_are_ignored_witness :
  let d := {| success := true; emotions := Some {[ "fear" := 0.5%Q ]};
              raw_field := None; error_field := None |} in
  let d' := {| success := true;
               emotions := Some (<["surprised" := 1%Q]> {[ "fear" := 0.5%Q ]});
               raw_field := None; error_field := None |} in
  smoothed (exec (sampleAndSend 0.6 true (Returned (Some d')) 1) initial)
  = smoothed (exec (sampleAndSend 0.6 true (Returned (Some d)) 1) initial) /\
  emitted (exec (sampleAndSend 0.6 true (Returned (Some d')) 1) initial)
  = emitted (exec (sampleAndSend 0.6 true (Returned (Some d)) 1) initial).
Proof.
  intros d d'.
  apply (extra_scores_are_ignored 0.6 1 d d' {[ "fear" := 0.5%Q ]} "surprised" 1%Q initial);
    try reflexivity.
  apply (bool_decide_unpack _). vm_compute. exact I.
Defined.

(** X15. For alpha between 0 and 1 the filter never overshoots: a score
    present on both sides is blended to a value between the previous one
    and the raw one. *)
Theorem ema_stays_between :
  forall prev next alpha k p r,
    (0 <= alpha)%Q -> (alpha <= 1)%Q ->
    prev !! k = Some p -> next !! k = Some r ->
    exists v,
      ema prev next alpha !! k = Some v /\
      (Qmin p r <= v)%Q /\ (v <= Qmax p r)%Q.
Proof.
  intros prev next alpha k p r Ha0 Ha1 Hp Hr.
  exists (alpha * p + (1 - alpha) * r)%Q. split.
  - rewrite ema_lookup. destruct (decide (k ∈ dom prev ∪ dom next)) as [_ | Hn].
    + rewrite Hp, Hr. reflexivity.
    + exfalso. apply Hn. apply elem_of_union_l, elem_of_dom. eexists; exact Hp.
  - destruct (Math_min_cases p r) as [[H1 E1] | [H1 E1]];
      destruct (Math_max_cases p r) as [[H2 E2] | [H2 E2]];
      unfold Math_min, Math_max in *; rewrite E1, E2; split; nra.
Qed.

Lemma ema_stays_between_witness :
  exists v,
    ema {[ "neutral" := 0.2%Q ]} {[ "neutral" := 0.8%Q ]} 0.6 !! "neutral" = Some v /\
    (Qmin 0.2 0.8 <= v)%Q /\ (v <= Qmax 0.2 0.8)%Q.
Proof.
  apply (ema_stays_between {[ "neutral" := 0.2%Q ]} {[ "neutral" := 0.8%Q ]}
           0.6 "neutral" 0.2 0.8); try reflexivity; unfold Qle; simpl; lia.
Defined.

(** X16. Feeding the same raw vector again and again: after n+1 updates a
    score stands at raw + alpha^(n+1) * (start - raw), where start is the
    previous score (0 when the key was missing): each update shrinks the
    distance to the raw score by the factor alpha.  A score that already
    equals the raw one stays there. *)
Theorem ema_repeated_closed_form :
  forall prev next alpha k r n,
    next !! k = Some r ->
    exists v,
      Nat.iter (S n) (fun m => ema m next alpha) prev !! k = Some v /\
      (v == r + Spec.qpow alpha (S n) * (nullish (prev !! k) 0 - r))%Q /\
      ((nullish (prev !! k) 0 == r)%Q -> (v == r)%Q).
Proof.
  intros prev next alpha k r n Hr.
  assert (Hk : forall m : gmap string Q, k ∈ dom m ∪ dom next).
  { intros m. apply elem_of_union_r, elem_of_dom. eexists; exact Hr. }
  assert (Hcl : exists v,
            Nat.iter (S n) (fun m => ema m next alpha) prev !! k = Some v /\
            (v == r + Spec.qpow alpha (S n) * (nullish (prev !! k) 0 - r))%Q).
  { induction n as [| n (v & Hv & Hcf)].
    - exists (blend' prev next alpha k). split.
      + simpl. rewrite ema_lookup. destruct (decide _); [reflexivity | exfalso; auto].
      + rewrite Hr. unfold nullish at 2. simpl. ring.
    - exists (alpha * v + (1 - alpha) * r)%Q. split.
      + change (Nat.iter (S (S n)) (fun m => ema m next alpha) prev)
          with (ema (Nat.iter (S n) (fun m => ema m next alpha) prev) next alpha).
        rewrite ema_lookup. destruct (decide _) as [_ | Hn]; [| exfalso; auto].
        rewrite Hv, Hr. reflexivity.
      + rewrite Hcf. change (Spec.qpow alpha (S (S n)))
          with (alpha * Spec.qpow alpha (S n))%Q. ring. }
  destruct Hcl as (v & Hv & Hcf). exists v. split; [exact Hv |]. split; [exact Hcf |].
  intros Heq. rewrite Hcf, Heq. ring.
Qed.

(** Happiness at 0 fed the raw score 1 three times with alpha = 1/2 stands
    at 7/8. *)
Lemma ema_repeated_closed_form_witness :
  exists v,
    Nat.iter 3 (fun m => ema m {[ "happiness" := 1%Q ]} (1 # 2))
             {[ "happiness" := 0%Q ]} !! "happiness" = Some v /\
    (v == 1 + Spec.qpow (1 # 2) 3 * (0 - 1))%Q /\
    (v == 7 # 8)%Q.
Proof.
  destruct (ema_repeated_closed_form {[ "happiness" := 0%Q ]} {[ "happiness" := 1%Q ]}
              (1 # 2) "happiness" 1 2 (lookup_singleton_eq _ _)) as (v & Hv & Hcf & _).
  exists v. split; [exact Hv |]. split; [exact Hcf |].
  rewrite Hcf. reflexivity.
Defined.

End FaceTrackerMore.
Section Bars.
Import Js FaceEmotionTracker.

Lemma StatBar_pct_unit (v : Q) :
  (0 <= v)%Q -> (v <= 1)%Q ->
  (0 <= StatBar_pct (Some v))%Z /\ (StatBar_pct (Some v) <= 100)%Z.
Proof.
  intros H0 H1.
  change (StatBar_pct (Some v)) with (Qfloor (v * 100 + (1 # 2))). split.
  - assert (H : (Qfloor (1 # 2) <= Qfloor (v * 100 + (1 # 2)))%Z)
      by (apply Qfloor_resp_le; lra).
    exact H.
  - assert (H : (Qfloor (v * 100 + (1 # 2)) <= Qfloor (100 + (1 # 2)))%Z)
      by (apply Qfloor_resp_le; lra).
    exact H.
Qed.

(** X17. The percentage a bar shows is the integer nearest to 100 times
    its value (a tie going up) and grows with the value; for a value
    between 0 and 1 it lies between 0 and 100, a missing value shows 0; so
    after any run of the sampling loop with alpha and all raw scores
    between 0 and 1, every bar of the panel shows between 0 and 100. *)
Theorem bars_stay_within_hundred :
  (forall v,
     (inject_Z (StatBar_pct (Some v)) <= v * 100 + (1 # 2))%Q /\
     (v * 100 + (1 # 2) < inject_Z (StatBar_pct (Some v) + 1))%Q) /\
  (forall v w, (v <= w)%Q -> (StatBar_pct (Some v) <= StatBar_pct (Some w))%Z) /\
  StatBar_pct None = 0%Z /\
  (forall v, (0 <= v)%Q -> (v <= 1)%Q ->
     (0 <= StatBar_pct (Some v))%Z /\ (StatBar_pct (Some v) <= 100)%Z) /\
  (forall alpha replies,
     (0 <= alpha)%Q -> (alpha <= 1)%Q ->
     Forall (fun r => Spec.reply_in_unit (fst r)) replies ->
     Forall (fun b => (0 <= snd b)%Z /\ (snd b <= 100)%Z)
            (bars (feed alpha replies initial))).
Proof.
  split; [| split; [| split; [| split]]].
  - intros v. change (StatBar_pct (Some v)) with (Qfloor (v * 100 + (1 # 2))).
    split; [apply Qfloor_le | apply Qlt_floor].
  - intros v w Hvw.
    change (StatBar_pct (Some v)) with (Qfloor (v * 100 + (1 # 2))).
    change (StatBar_pct (Some w)) with (Qfloor (w * 100 + (1 # 2))).
    apply Qfloor_resp_le. lra.
  - reflexivity.
  - apply StatBar_pct_unit.
  - intros alpha replies Ha0 Ha1 Hall.
    assert (Hu : Spec.in_unit (smoothed (feed alpha replies initial))).
    { apply feed_smoothed_unit; try assumption. apply initial_in_unit. }
    assert (Hb : forall k, (0 <= StatBar_pct (smoothed (feed alpha replies initial) !! k))%Z /\
                           (StatBar_pct (smoothed (feed alpha replies initial) !! k) <= 100)%Z).
    { intros k. destruct (smoothed (feed alpha replies initial) !! k) as [v |] eqn:E.
      - destruct (Hu k v E). apply StatBar_pct_unit; assumption.
      - split; [reflexivity | discriminate]. }
    unfold bars. repeat (apply Forall_cons; split; [apply Hb |]). apply Forall_nil_2.
Qed.

Lemma bars_stay_within_hundred_witness :
  let d := {| success := true;
              emotions := Some {[ "happiness" := 1%Q; "neutral" := 0.5%Q ]};
              raw_field := None; error_field := None |} in
  Forall (fun b => (0 <= snd b)%Z /\ (snd b <= 100)%Z)
         (bars (feed 0.6 [(Returned (Some d), 0%Z)] initial)).
Proof.
  intros d. apply (proj2 (proj2 (proj2 (proj2 bars_stay_within_hundred)))).
  - unfold Qle. simpl. lia.
  - unfold Qle. simpl. lia.
  - apply Forall_cons. split; [| apply Forall_nil_2].
    intros d' em Hr He. simpl in Hr. injection Hr as <-.
    simpl in He. injection He as <-.
    intros k v Hk.
    apply lookup_insert_Some in Hk as [[_ <-] | [_ Hk]];
      [unfold Qle; simpl; lia |].
    apply lookup_singleton_Some in Hk as [_ <-]. unfold Qle; simpl; lia.
Defined.

End Bars.
Section ChatTurnsMore.
Import Js ChatBot.

Lemma trim_truthy (t : string) : truthy (trim t) = true -> truthy t = true.
Proof. destruct t; [discriminate | reflexivity]. Qed.

Lemma slice_last_length_le {A : Type} (n : nat) (l : list A) :
  length (slice_last n l) <= n.
Proof. unfold slice_last. rewrite length_drop. lia. Qed.

Lemma handleAudioFlow_shapes :
  forall net st,
    let st' := exec (handleAudioFlow net) st in
    let h := slice_last 10 (messages st) in
    outcome (handleAudioFlow net) st = Returned tt /\
    loading st' = false /\ input st' = input st /\
    voiceEnabled st' = voiceEnabled st /\
    ((exists a,
        messages st' = messages st ++ [Spec.assistant_says a] /\
        requests st' = requests st ++ [Transcription h] /\
        played st' = played st) \/
     (exists t a,
        messages st' = messages st ++ [Spec.user_says t; Spec.assistant_says a] /\
        requests st' = requests st ++ [Transcription h; Reply t h] /\
        (played st' = played st \/
         exists b, played st' = played st ++ [b] /\ voiceEnabled st = true))).
Proof.
  intros net st st' h. subst st'.
  unfold handleAudioFlow, safeFetchJson, appendMessage, playReply; js_unfold.
  simpl. fold h.
  destruct (net (Transcription h)) as [r1 | e1]; simpl;
    [| repeat split; one_appended].
  destruct (succeeded r1); simpl; [| repeat split; one_appended].
  destruct (truthy (or_else (r1 ≫= transcript) "")); simpl;
    [| repeat split; one_appended].
  destruct (net (Reply (or_else (r1 ≫= transcript) "") h)) as [r2 | e2]; simpl;
    [| repeat split; two_appended ltac:(left; reflexivity)].
  destruct (succeeded r2); simpl;
    [| repeat split; two_appended ltac:(left; reflexivity)].
  destruct (r2 ≫= audioBase64) as [b |]; simpl;
    [| repeat split; two_appended ltac:(left; reflexivity)].
  destruct (voiceEnabled st) eqn:Hv; simpl;
    [| repeat split; try assumption; two_appended ltac:(left; reflexivity)].
  destruct (truthy b); simpl; repeat split; try assumption.
  - two_appended ltac:(right; eexists; split; reflexivity).
  - two_appended ltac:(left; reflexivity).
Qed.

(** X18. A voice turn, whatever the backend does: the handler completes
    without throwing, the loading flag ends false, input and auto-play
    setting are untouched, and the turn is one of two shapes.  Either only
    the transcription request was sent and one assistant message was
    appended, nothing played; or the transcription and one reply request
    were sent, both with the same history, and a user message followed by
    one assistant message were appended, with at most one audio payload
    played and only if auto-play is on. *)
Theorem voice_turn_shapes :
  forall net st,
    let st' := exec (handleAudioFlow net) st in
    let h := slice_last 10 (messages st) in
    outcome (handleAudioFlow net) st = Returned tt /\
    loading st' = false /\ input st' = input st /\
    voiceEnabled st' = voiceEnabled st /\
    ((exists a,
        messages st' = messages st ++ [Spec.assistant_says a] /\
        requests st' = requests st ++ [Transcription h] /\
        played st' = played st) \/
     (exists t a,
        messages st' = messages st ++ [Spec.user_says t; Spec.assistant_says a] /\
        requests st' = requests st ++ [Transcription h; Reply t h] /\
        (played st' = played st \/
         exists b, played st' = played st ++ [b] /\ voiceEnabled st = true))).
Proof. exact handleAudioFlow_shapes. Qed.

Lemma sendText_nonblank (net : Backend) (t : string) (st : State) :
  truthy (trim t) = true ->
  let st' := exec (sendText net (Some t)) st in
  let asked := Reply (trim t) (slice_last 10 (messages st)) in
  outcome (sendText net (Some t)) st = Returned tt /\
  exists a,
    messages st' = messages st ++ [Spec.user_says (trim t); Spec.assistant_says a] /\
    requests st' = requests st ++ [asked] /\
    input st' = "" /\ loading st' = false /\
    voiceEnabled st' = voiceEnabled st /\
    (played st' = played st \/
     exists b, played st' = played st ++ [b] /\ voiceEnabled st = true) /\
    (forall r, net asked = Returned (Some r) ->
       success r = true -> a = nullish (replyText r) "(no reply text)") /\
    (forall r, net asked = Returned r ->
       succeeded r = false -> a = or_else (r ≫= error) "Assistant error.") /\
    (forall e, net asked = Threw e -> a = "Failed to reach assistant.").
Proof.
  intros Htt. pose proof (trim_truthy t Htt) as Ht.
  unfold sendText. rewrite Ht, Htt. simpl.
  unfold safeFetchJson, appendMessage, playReply; js_unfold. simpl.
  set (asked := Reply (trim t) (slice_last 10 (messages st))).
  destruct (net asked) as [[r |] | e] eqn:Hnet; subst asked; simpl.
  - destruct (success r) eqn:Hs; simpl.
    + assert (Hans :
        (forall r0, @Returned (option VoiceReply) (Some r) = Returned (Some r0) ->
           success r0 = true ->
           nullish (replyText r) "(no reply text)"
           = nullish (replyText r0) "(no reply text)") /\
        (forall r0 : option VoiceReply,
           Returned (Some r) = Returned r0 ->
           succeeded r0 = false ->
           nullish (replyText r) "(no reply text)"
           = or_else (r0 ≫= error) "Assistant error.") /\
        (forall e, @Returned (option VoiceReply) (Some r) = Threw e ->
           nullish (replyText r) "(no reply text)" = "Failed to reach assistant.")).
      { split; [| split].
        - intros r0 E _. injection E as <-. reflexivity.
        - intros r0 E Hf. injection E as <-. simpl in Hf. congruence.
        - intros e E. discriminate. }
      split; [destruct (audioBase64 r) as [b |]; simpl;
              [destruct (voiceEnabled st && truthy b) |]; reflexivity |].
      exists (nullish (replyText r) "(no reply text)").
      destruct (audioBase64 r) as [b |]; simpl;
        [destruct (voiceEnabled st) eqn:Hv; simpl; [destruct (truthy b); simpl |] |];
        (split; [rewrite <- app_assoc; reflexivity |]);
        (split; [reflexivity |]); (split; [reflexivity |]);
        (split; [reflexivity |]); (split; [first [reflexivity | assumption] |]);
        (split; [first [left; reflexivity | right; eexists; split; reflexivity] |]);
        exact Hans.
    + split; [reflexivity |].
      exists (or_else (error r) "Assistant error.").
      split; [rewrite <- app_assoc; reflexivity |].
      repeat (split; [reflexivity |]).
      split; [left; reflexivity |].
      split; [intros r' E Hs'; injection E as <-; congruence |].
      split; [intros r' E _; injection E as <-; reflexivity
             | intros e' E; discriminate].
  - split; [reflexivity |].
    exists "Assistant error.".
    split; [rewrite <- app_assoc; reflexivity |].
    repeat (split; [reflexivity |]).
    split; [left; reflexivity |].
    split; [intros r' E; discriminate |].
    split; [intros r' E _; injection E as <-; reflexivity
           | intros e' E; discriminate].
  - split; [reflexivity |].
    exists "Failed to reach assistant.".
    split; [rewrite <- app_assoc; reflexivity |].
    repeat (split; [reflexivity |]).
    split; [left; reflexivity |].
    split; [intros r' E; discriminate |].
    split; [intros r' E; discriminate | intros e' E; reflexivity].
Qed.

(** X19. A typed turn with a text that is not blank, whatever the backend
    does: the handler completes, exactly one request is sent, carrying the
    trimmed text and the last 10 messages from before the turn; the trimmed
    text (no white space at either end) is appended as a user message,
    followed by exactly one assistant message: the reply text on success,
    the server's error or a fallback when the body reports failure, a fixed
    text when the call throws.  The input box is emptied and the loading
    flag ends false. *)
Theorem typed_turn_shape :
  forall net t st,
    truthy (trim t) = true ->
    let st' := exec (sendText net (Some t)) st in
    let asked := Reply (trim t) (slice_last 10 (messages st)) in
    (outcome (sendText net (Some t)) st = Returned tt /\
     exists a,
       messages st' = messages st ++ [Spec.user_says (trim t); Spec.assistant_says a] /\
       requests st' = requests st ++ [asked] /\
       input st' = "" /\ loading st' = false /\
       voiceEnabled st' = voiceEnabled st /\
       (played st' = played st \/
        exists b, played st' = played st ++ [b] /\ voiceEnabled st = true) /\
       (forall r, net asked = Returned (Some r) ->
          success r = true -> a = nullish (replyText r) "(no reply text)") /\
       (forall r, net asked = Returned r ->
          succeeded r = false -> a = or_else (r ≫= error) "Assistant error.") /\
       (forall e, net asked = Threw e -> a = "Failed to reach assistant.")) /\
    Spec.clean_start (trim t) = true /\
    Spec.clean_start (String.rev (trim t)) = true.
Proof.
  intros net t st Htt st' asked. split.
  - apply sendText_nonblank. exact Htt.
  - apply trim_clean.
Qed.

Lemma typed_turn_shape_witness :
  let net : Backend := fun _ => Threw "offline" in
  let st' := exec (sendText net (Some "  hello ")) initial in
  outcome (sendText net (Some "  hello ")) initial = Returned tt /\
  exists a,
    messages st' = messages initial ++ [Spec.user_says (trim "  hello ");
                                        Spec.assistant_says a] /\
    requests st' = requests initial
                   ++ [Reply (trim "  hello ") (slice_last 10 (messages initial))] /\
    input st' = "" /\ loading st' = false /\
    voiceEnabled st' = voiceEnabled initial /\
    (played st' = played initial \/
     exists b, played st' = played initial ++ [b] /\ voiceEnabled initial = true) /\
    (forall r, net (Reply (trim "  hello ") (slice_last 10 (messages initial)))
               = Returned (Some r) ->
       success r = true -> a = nullish (replyText r) "(no reply text)") /\
    (forall r, net (Reply (trim "  hello ") (slice_last 10 (messages initial)))
               = Returned r ->
       succeeded r = false -> a = or_else (r ≫= error) "Assistant error.") /\
    (forall e, net (Reply (trim "  hello ") (slice_last 10 (messages initial)))
               = Threw e -> a = "Failed to reach assistant.").
Proof.
  intros net.
  apply (proj1 (typed_turn_shape net "  hello " initial eq_refl)).
Defined.



Lemma sendText_blank (net : Backend) (txt : option string) (st : State) :
  (forall t, txt = Some t -> truthy (trim t) = false) ->
  sendText net txt st = (Returned tt, st).
Proof.
  intros H. destruct txt as [t |]; [| reflexivity].
  unfold sendText. rewrite (H t eq_refl). rewrite orb_true_r. reflexivity.
Qed.

(** What any turn adds: messages, requests and played payloads are only
    appended; every request carries the last 10 messages of before the
    turn; nothing is played with auto-play off; and when messages were
    added the last one is the assistant's. *)
Lemma takeTurn_effect (net : Backend) (t : Turn) (st : State) :
  let st' := exec (takeTurn net t) st in
  voiceEnabled st' = voiceEnabled st /\
  exists added reqs pl,
    messages st' = messages st ++ added /\
    requests st' = requests st ++ reqs /\
    played st' = played st ++ pl /\
    Forall (fun r => Spec.history_of r = slice_last 10 (messages st)) reqs /\
    (voiceEnabled st = false -> pl = []) /\
    (added = [] \/ exists pre a, added = pre ++ [Spec.assistant_says a]).
Proof.
  destruct t as [txt |]; simpl.
  - destruct txt as [t |];
      [destruct (truthy (trim t)) eqn:Htt |].
    + destruct (sendText_nonblank net t st Htt)
        as (_ & a & Hm & Hr & _ & _ & Hv & Hp & _).
      split; [exact Hv |].
      destruct Hp as [Hp | (b & Hp & Hon)].
      * exists [Spec.user_says (trim t); Spec.assistant_says a],
          [Reply (trim t) (slice_last 10 (messages st))], [].
        rewrite app_nil_r. repeat split; try assumption.
        -- repeat constructor.
        -- right. exists [Spec.user_says (trim t)], a. reflexivity.
      * exists [Spec.user_says (trim t); Spec.assistant_says a],
          [Reply (trim t) (slice_last 10 (messages st))], [b].
        repeat split; try assumption.
        -- repeat constructor.
        -- intros Hoff. congruence.
        -- right. exists [Spec.user_says (trim t)], a. reflexivity.
    + unfold exec. rewrite sendText_blank by (intros t' E; injection E as <-; exact Htt).
      split; [reflexivity |]. exists [], [], []. rewrite !app_nil_r.
      repeat split; try reflexivity; [constructor | left; reflexivity].
    + split; [reflexivity |]. exists [], [], []. rewrite !app_nil_r.
      repeat split; try reflexivity; [constructor | left; reflexivity].
  - destruct (handleAudioFlow_shapes net st)
      as (_ & _ & _ & Hv & [(a & Hm & Hr & Hp) | (t & a & Hm & Hr & Hp)]).
    + split; [exact Hv |].
      exists [Spec.assistant_says a], [Transcription (slice_last 10 (messages st))], [].
      rewrite app_nil_r. repeat split; try assumption.
      * repeat constructor.
      * right. exists [], a. reflexivity.
    + split; [exact Hv |]. destruct Hp as [Hp | (b & Hp & Hon)].
      * exists [Spec.user_says t; Spec.assistant_says a],
          [Transcription (slice_last 10 (messages st));
           Reply t (slice_last 10 (messages st))], [].
        rewrite app_nil_r. repeat split; try assumption.
        -- repeat constructor.
        -- right. exists [Spec.user_says t], a. reflexivity.
      * exists [Spec.user_says t; Spec.assistant_says a],
          [Transcription (slice_last 10 (messages st));
           Reply t (slice_last 10 (messages st))], [b].
        repeat split; try assumption.
        -- repeat constructor.
        -- intros Hoff. congruence.
        -- right. exists [Spec.user_says t], a. reflexivity.
Qed.

Lemma converse_cons (net : Backend) (t : Turn) (turns : list (Backend * Turn))
    (st : State) :
  converse ((net, t) :: turns) st = converse turns (exec (takeTurn net t) st).
Proof. reflexivity. Qed.

(** X21. Over any conversation (typed and spoken turns in any order,
    against any backends) the chat only ever appends to its log, and if
    the log ended with an assistant message before, it does so after:
    starting from the greeting, no completed turn leaves a user message
    unanswered. *)
Theorem chat_log_is_append_only :
  forall turns st,
    (exists added, messages (converse turns st) = messages st ++ added) /\
    (Spec.ends_with_assistant (messages st) ->
     Spec.ends_with_assistant (messages (converse turns st))).
Proof.
  induction turns as [| [net t] turns IH]; intros st.
  - split; [exists []; rewrite app_nil_r; reflexivity | auto].
  - rewrite converse_cons.
    destruct (takeTurn_effect net t st)
      as (_ & added & reqs & pl & Hm & _ & _ & _ & _ & Hlast).
    destruct (IH (exec (takeTurn net t) st)) as [(more & Hmore) Hend]. split.
    + exists (added ++ more). rewrite Hmore, Hm, app_assoc. reflexivity.
    + intros Hst. apply Hend. rewrite Hm.
      destruct Hlast as [-> | (pre & a & ->)].
      * rewrite app_nil_r. exact Hst.
      * intros m Hl. rewrite app_assoc, last_snoc in Hl. injection Hl as <-.
        reflexivity.
Qed.

Lemma chat_log_is_append_only_witness :
  let ok := {| success := true; error := None; transcript := None;
               replyText := Some "hi"; audioBase64 := None |} in
  let turns := [ (fun _ => Returned (Some ok), Typed (Some "hello"));
                 (fun _ => Threw "offline", Spoken);
                 (fun _ => Returned None, Typed (Some "  ")) ] in
  Spec.ends_with_assistant (messages (converse turns initial)).
Proof.
  intros ok turns. apply (proj2 (chat_log_is_append_only turns initial)).
  intros m Hl. simpl in Hl. injection Hl as <-. reflexivity.
Defined.

(** X22. Every request of any conversation carries at most 10 messages
    of history. *)
Theorem chat_history_is_bounded :
  forall turns st,
    Forall (fun r => length (Spec.history_of r) <= 10) (requests st) ->
    Forall (fun r => length (Spec.history_of r) <= 10) (requests (converse turns st)).
Proof.
  induction turns as [| [net t] turns IH]; intros st Hst; [exact Hst |].
  rewrite converse_cons. apply IH.
  destruct (takeTurn_effect net t st)
    as (_ & added & reqs & pl & _ & Hr & _ & Hh & _ & _).
  rewrite Hr. apply Forall_app. split; [exact Hst |].
  eapply Forall_impl; [exact Hh |]. intros r E. simpl in E. rewrite E.
  apply slice_last_length_le.
Qed.

Lemma chat_history_is_bounded_witness :
  let turns := [ (fun _ => Threw "offline", Typed (Some "hello"));
                 (fun _ => Returned None, Spoken) ] in
  Forall (fun r => length (Spec.history_of r) <= 10) (requests (converse turns initial)).
Proof.
  intros turns. apply (chat_history_is_bounded turns initial). apply Forall_nil_2.
Defined.

(** X23. With auto-play off, no conversation ever hands an audio payload
    to the player, whatever the backend returns; and no turn changes the
    auto-play setting. *)
Theorem autoplay_off_plays_nothing :
  forall turns st,
    voiceEnabled (converse turns st) = voiceEnabled st /\
    (voiceEnabled st = false -> played (converse turns st) = played st).
Proof.
  induction turns as [| [net t] turns IH]; intros st; [split; reflexivity |].
  rewrite converse_cons.
  destruct (takeTurn_effect net t st)
    as (Hv & added & reqs & pl & _ & _ & Hp & _ & Hoff & _).
  destruct (IH (exec (takeTurn net t) st)) as [IHv IHp]. split.
  - rewrite IHv. exact Hv.
  - intros Hf. rewrite IHp by (rewrite Hv; exact Hf).
    rewrite Hp, (Hoff Hf), app_nil_r. reflexivity.
Qed.

Lemma autoplay_off_plays_nothing_witness :
  let loud := {| success := true; error := None; transcript := Some "hello";
                 replyText := Some "hi"; audioBase64 := Some "T2dnUw" |} in
  let muted := {| messages := messages initial; loading := false; input := "";
                  voiceEnabled := false; requests := []; played := [] |} in
  let turns := [ (fun _ => Returned (Some loud), Spoken);
                 (fun _ => Returned (Some loud), Typed (Some "again")) ] in
  played (converse turns muted) = played muted.
Proof.
  intros loud muted turns.
  apply (proj2 (autoplay_off_plays_nothing turns muted)). reflexivity.
Defined.

End ChatTurnsMore.
